(** * Run page: polling, optimistic HITL overlay and phase timeline

    A shallow embedding of the run view of the control panel:
    - [fetchAll], [handleHITL] and the two effects of the [RunPage]
      component (pages/RunPage.jsx),
    - the phase classification of [PipelineTracker]
      (components/PipelineTracker.jsx).

    React state cells ([useState]) and refs ([useRef]) become the fields of
    one [State] record that is threaded through the handlers.  An [await]
    splits a handler in two: the part before it and the continuation that
    runs, atomically, once the awaited promise settles.  The settled value
    comes from the network and is an input of the continuation. *)

From stdpp Require Import base option list strings gmap.
From Stdlib Require Import ZArith Lia.

Local Open Scope string_scope.

(** ** Payloads *)

(** Payloads that the page stores verbatim and never inspects. *)
#[local] Unset Elimination Schemes.
Inductive json :=
| JNull
| JBool (b : bool)
| JNum (n : Z)
| JStr (s : string)
| JArr (items : list json)
| JObj (fields : list (string * json)).
#[local] Set Elimination Schemes.

(** The body of [GET /runs/{id}], with the fields the page and the tracker
    read. *)
Record Run := {
  status : string;
  current_phase : string;
  current_agent : string;
  brief : string;
  num_requirements : Z;
  num_user_stories : Z;
  num_test_cases : Z;
  num_generated_files : Z;
  planning_iteration : Z;
}.

(** ** JavaScript strings read by their code units *)

(** A JavaScript string as the sequence of its UTF-16 code units; the
    text typed into a form is read this way. *)
Abbreviation ustring := (list N).

(** The code units that [String.prototype.trim] strips and that [\s]
    matches: the white space and line terminator characters of
    ECMAScript. *)
Definition isWhiteSpace (c : N) : bool :=
  (N.eqb c 9 || N.eqb c 10 || N.eqb c 11 || N.eqb c 12 || N.eqb c 13
   || N.eqb c 32 || N.eqb c 160 || N.eqb c 5760
   || (N.leb 8192 c && N.leb c 8202)
   || N.eqb c 8232 || N.eqb c 8233 || N.eqb c 8239 || N.eqb c 8287
   || N.eqb c 12288 || N.eqb c 65279)%bool.

Fixpoint trimStart (s : ustring) : ustring :=
  match s with
  | c :: s' => if isWhiteSpace c then trimStart s' else s
  | [] => []
  end.

Definition trimEnd (s : ustring) : ustring :=
  reverse (trimStart (reverse s)).

Definition trim (s : ustring) : ustring := trimEnd (trimStart s).

(** [Boolean(piece)]: a string is truthy when it is not empty. *)
Definition truthy (piece : ustring) : bool :=
  match piece with [] => false | _ :: _ => true end.

(** The code units of an ASCII text. *)
Fixpoint units (s : string) : ustring :=
  match s with
  | EmptyString => []
  | String c s' => Ascii.N_of_ascii c :: units s'
  end.

(** One entry of the activity log; the timestamp is read by position. *)
Record ActivityEntry := {
  agent : string;
  message : string;
  detail : option string;
  timestamp : option ustring;
  icon : string;
}.

(** The body of [GET /deploy/status]. *)
Record Deploy := {
  dep_status : string;
  dep_urls : list (string * string);
}.

(** The body of [POST /runs/{id}/hitl]: [current_phase] may be missing. *)
Record HitlData := {
  hd_status : string;
  hd_current_phase : option string;
}.

(** What the handlers read of a rejection: [e.response?.status],
    [e.response?.data?.detail] and [e.message]. *)
Record Reason := {
  response_status : option Z;
  response_detail : option string;
  err_message : string;
}.

(** An element of the array [Promise.allSettled] resolves to; also the
    outcome of a single awaited request ([Rejected] is the [catch] path). *)
Inductive Settled (A : Type) :=
| Fulfilled (value : A)
| Rejected (reason : Reason).
Arguments Fulfilled {A} value.
Arguments Rejected {A} reason.

(** The body of a response of which the code reads one member
    ([data.files], [data.decisions], [data.activity]).  Reading a member
    of [null] or [undefined] throws; of any other body it gives the
    member, or [undefined] when the body has none. *)
Inductive Body (A : Type) :=
| NoBody
| HasBody (member : option A).
Arguments NoBody {A}.
Arguments HasBody {A} member.

(** The six results of one poll cycle, in the order of the array.  The
    body of the run and of the deploy status is an object with the fields
    of [Run] and [Deploy]; the body of the artifacts is stored as it is. *)
Record PollResults := {
  runRes : Settled Run;
  artRes : Settled json;
  filesRes : Settled (Body (list json));
  decRes : Settled (Body (list json));
  depRes : Settled Deploy;
  actRes : Settled (Body (list ActivityEntry));
}.

(** ** The state of a mounted [RunPage] *)

Record State := {
  (* useState *)
  run : option Run;
  artifacts : json;
  files : list json;
  decisions : list json;
  deploy : Deploy;
  activityLog : list ActivityEntry;
  loading : bool;
  error : option string;
  hitlLoading : bool;
  (* useRef *)
  hitlJustApproved : bool;
  (* the timer registered by [setInterval] and kept in [pollRef.current]
     has not been cleared *)
  interval_live : bool;
  (* bookkeeping of the embedding: calls of [fetchAll] whose
     [Promise.allSettled] has not settled yet, and whether the component
     is still mounted *)
  inflight : nat;
  mounted : bool;
}.

(** The setters of the state cells.  [setRun] takes the updater function,
    as in [setRun((prev) => ...)]; [setRun(v)] is [setRun (const v)]. *)
Definition setRun (f : option Run → option Run) (s : State) : State :=
  {| run := f (run s); artifacts := artifacts s; files := files s;
     decisions := decisions s; deploy := deploy s;
     activityLog := activityLog s; loading := loading s; error := error s;
     hitlLoading := hitlLoading s; hitlJustApproved := hitlJustApproved s;
     interval_live := interval_live s; inflight := inflight s;
     mounted := mounted s |}.

Definition setArtifacts (v : json) (s : State) : State :=
  {| run := run s; artifacts := v; files := files s;
     decisions := decisions s; deploy := deploy s;
     activityLog := activityLog s; loading := loading s; error := error s;
     hitlLoading := hitlLoading s; hitlJustApproved := hitlJustApproved s;
     interval_live := interval_live s; inflight := inflight s;
     mounted := mounted s |}.

Definition setFiles (v : list json) (s : State) : State :=
  {| run := run s; artifacts := artifacts s; files := v;
     decisions := decisions s; deploy := deploy s;
     activityLog := activityLog s; loading := loading s; error := error s;
     hitlLoading := hitlLoading s; hitlJustApproved := hitlJustApproved s;
     interval_live := interval_live s; inflight := inflight s;
     mounted := mounted s |}.

Definition setDecisions (v : list json) (s : State) : State :=
  {| run := run s; artifacts := artifacts s; files := files s;
     decisions := v; deploy := deploy s;
     activityLog := activityLog s; loading := loading s; error := error s;
     hitlLoading := hitlLoading s; hitlJustApproved := hitlJustApproved s;
     interval_live := interval_live s; inflight := inflight s;
     mounted := mounted s |}.

Definition setDeploy (v : Deploy) (s : State) : State :=
  {| run := run s; artifacts := artifacts s; files := files s;
     decisions := decisions s; deploy := v;
     activityLog := activityLog s; loading := loading s; error := error s;
     hitlLoading := hitlLoading s; hitlJustApproved := hitlJustApproved s;
     interval_live := interval_live s; inflight := inflight s;
     mounted := mounted s |}.

Definition setActivityLog (v : list ActivityEntry) (s : State) : State :=
  {| run := run s; artifacts := artifacts s; files := files s;
     decisions := decisions s; deploy := deploy s;
     activityLog := v; loading := loading s; error := error s;
     hitlLoading := hitlLoading s; hitlJustApproved := hitlJustApproved s;
     interval_live := interval_live s; inflight := inflight s;
     mounted := mounted s |}.

Definition setLoading (v : bool) (s : State) : State :=
  {| run := run s; artifacts := artifacts s; files := files s;
     decisions := decisions s; deploy := deploy s;
     activityLog := activityLog s; loading := v; error := error s;
     hitlLoading := hitlLoading s; hitlJustApproved := hitlJustApproved s;
     interval_live := interval_live s; inflight := inflight s;
     mounted := mounted s |}.

Definition setError (v : option string) (s : State) : State :=
  {| run := run s; artifacts := artifacts s; files := files s;
     decisions := decisions s; deploy := deploy s;
     activityLog := activityLog s; loading := loading s; error := v;
     hitlLoading := hitlLoading s; hitlJustApproved := hitlJustApproved s;
     interval_live := interval_live s; inflight := inflight s;
     mounted := mounted s |}.

Definition setHitlLoading (v : bool) (s : State) : State :=
  {| run := run s; artifacts := artifacts s; files := files s;
     decisions := decisions s; deploy := deploy s;
     activityLog := activityLog s; loading := loading s; error := error s;
     hitlLoading := v; hitlJustApproved := hitlJustApproved s;
     interval_live := interval_live s; inflight := inflight s;
     mounted := mounted s |}.

(** [hitlJustApproved.current = v] *)
Definition set_hitlJustApproved (v : bool) (s : State) : State :=
  {| run := run s; artifacts := artifacts s; files := files s;
     decisions := decisions s; deploy := deploy s;
     activityLog := activityLog s; loading := loading s; error := error s;
     hitlLoading := hitlLoading s; hitlJustApproved := v;
     interval_live := interval_live s; inflight := inflight s;
     mounted := mounted s |}.

(** [clearInterval(pollRef.current)] *)
Definition clearInterval (s : State) : State :=
  {| run := run s; artifacts := artifacts s; files := files s;
     decisions := decisions s; deploy := deploy s;
     activityLog := activityLog s; loading := loading s; error := error s;
     hitlLoading := hitlLoading s; hitlJustApproved := hitlJustApproved s;
     interval_live := false; inflight := inflight s;
     mounted := mounted s |}.

Definition set_inflight (n : nat) (s : State) : State :=
  {| run := run s; artifacts := artifacts s; files := files s;
     decisions := decisions s; deploy := deploy s;
     activityLog := activityLog s; loading := loading s; error := error s;
     hitlLoading := hitlLoading s; hitlJustApproved := hitlJustApproved s;
     interval_live := interval_live s; inflight := n;
     mounted := mounted s |}.

Definition set_mounted (v : bool) (s : State) : State :=
  {| run := run s; artifacts := artifacts s; files := files s;
     decisions := decisions s; deploy := deploy s;
     activityLog := activityLog s; loading := loading s; error := error s;
     hitlLoading := hitlLoading s; hitlJustApproved := hitlJustApproved s;
     interval_live := interval_live s; inflight := inflight s;
     mounted := v |}.

(** ** JavaScript operators on the modelled values *)

(** [a || b] where [a] is a string or undefined: the empty string and
    undefined are falsy. *)
Definition js_or (a : option string) (b : string) : string :=
  match a with
  | Some x => if String.eqb x "" then b else x
  | None => b
  end.

(** [a || []] where [a] is an array or undefined: every array is truthy. *)
Definition or_empty {A} (a : option (list A)) : list A :=
  match a with Some l => l | None => [] end.

(** [prev?.current_phase === phase] *)
Definition prev_phase_is (prev : option Run) (phase : string) : bool :=
  match prev with
  | Some p => String.eqb (current_phase p) phase
  | None => false
  end.

(** [{ ...base, status: 'running', current_phase: phase, current_agent: '' }] *)
Definition spread_running (base : Run) (phase : string) : Run :=
  {| status := "running"; current_phase := phase; current_agent := "";
     brief := brief base;
     num_requirements := num_requirements base;
     num_user_stories := num_user_stories base;
     num_test_cases := num_test_cases base;
     num_generated_files := num_generated_files base;
     planning_iteration := planning_iteration base |}.

(** ** [fetchAll] *)

(** The updater passed to [setRun] when the flag is set and the poll still
    reports [waiting_hitl]. *)
Definition mask_stale (incoming : Run) (prev : option Run) : option Run :=
  Some (spread_running incoming
          (if prev_phase_is prev "hitl_gate_1" then "building"
           else if prev_phase_is prev "hitl_gate_2" then "devops"
           else current_phase incoming)).

(** The branch [if (runRes.status === 'fulfilled')]. *)
Definition apply_run (incoming : Run) (s : State) : State :=
  if hitlJustApproved s then
    if negb (String.eqb (status incoming) "waiting_hitl") then
      setRun (const (Some incoming)) (set_hitlJustApproved false s)
    else
      setRun (mask_stale incoming) s
  else setRun (const (Some incoming)) s.

(** The five statements after the run branch.  They stand in the [try]
    of [fetchAll], whose [catch] is empty: when [data.files],
    [data.decisions] or [data.activity] is read of a missing body, the
    statement throws and the statements after it are not run. *)
Definition apply_rest (res : PollResults) (s : State) : State :=
  let s := match artRes res with
           | Fulfilled data => setArtifacts data s | Rejected _ => s end in
  match filesRes res with
  | Fulfilled NoBody => s
  | files_result =>
      let s := match files_result with
               | Fulfilled (HasBody data) => setFiles (or_empty data) s
               | _ => s end in
      match decRes res with
      | Fulfilled NoBody => s
      | dec_result =>
          let s := match dec_result with
                   | Fulfilled (HasBody data) => setDecisions (or_empty data) s
                   | _ => s end in
          let s := match depRes res with
                   | Fulfilled data => setDeploy data s | Rejected _ => s end in
          match actRes res with
          | Fulfilled NoBody => s
          | Fulfilled (HasBody data) => setActivityLog (or_empty data) s
          | Rejected _ => s
          end
      end
  end.

(** [runRes.reason?.response?.status === 404] *)
Definition is_404 (r : Reason) : bool :=
  match response_status r with
  | Some code => Z.eqb code 404
  | None => false
  end.

(** The body of [fetchAll] from the point where [Promise.allSettled] has
    settled; [finally] runs on every path, also after the [return]. *)
Definition fetchAll_settled (res : PollResults) (s : State) : State :=
  let finally := setLoading false in
  match runRes res with
  | Fulfilled incoming => finally (apply_rest res (apply_run incoming s))
  | Rejected reason =>
      if is_404 reason then
        finally (setLoading false (setRun (const None) (clearInterval s)))
      else finally (apply_rest res s)
  end.

(** ** [handleHITL] *)

(** Up to the [await]: [setHitlLoading(true); setError(null)]. *)
Definition handleHITL_start (s : State) : State :=
  setError None (setHitlLoading true s).

(** [e.response?.data?.detail || e.message] *)
Definition error_text (e : Reason) : string :=
  js_or (response_detail e) (err_message e).

(** The updater passed to [setRun] by [handleHITL]. *)
Definition predict (data : HitlData) (prev : option Run) : option Run :=
  match prev with
  | Some p =>
      Some (spread_running p (js_or (hd_current_phase data) (current_phase p)))
  | None => prev
  end.

(** From the point where [submitHITL] has settled. *)
Definition handleHITL_settled (r : Settled HitlData) (s : State) : State :=
  let s :=
    match r with
    | Fulfilled data =>
        if negb (String.eqb (hd_status data) "already_processed") then
          setRun (predict data) (set_hitlJustApproved true s)
        else s
    | Rejected e => setError (Some (error_text e)) s
    end in
  setHitlLoading false s.

(** ** The other handlers of the page *)

(** [handleExport] from the point where [exportProject] has settled.  On
    success it calls [fetchAll] again, whose continuation is
    [fetchAll_settled] like that of any other call. *)
Definition handleExport_settled (r : Settled json) (s : State) : State :=
  match r with
  | Fulfilled _ => set_inflight (S (inflight s)) s
  | Rejected e => setError (Some (error_text e)) s
  end.

(** [handleDeploy] and [handleTeardown] from the point where the request
    has settled. *)
Definition handleDeploy_settled (r : Settled Deploy) (s : State) : State :=
  match r with
  | Fulfilled data => setDeploy data s
  | Rejected e => setError (Some (error_text e)) s
  end.

Definition handleTeardown_settled (r : Settled Deploy) (s : State) : State :=
  match r with
  | Fulfilled data => setDeploy data s
  | Rejected e => setError (Some (error_text e)) s
  end.

(** ** Effects and rendering *)

(** [run?.status], the dependency of the second effect. *)
Definition run_status (s : State) : option string := status <$> run s.

(** [useEffect(() => { if (run?.status === 'completed')
    clearInterval(pollRef.current) }, [run?.status])]: after a render in
    which the dependency has changed, the effect body runs. *)
Definition effect_completed (old new : State) : State :=
  if decide (run_status old = run_status new) then new
  else if decide (run_status new = Some "completed") then clearInterval new
  else new.

(** The page body (header, gate, tabs) is rendered only past the two early
    returns [if (loading)] and [if (!run)]. *)
Definition body_rendered (s : State) : bool :=
  negb (loading s) && bool_decide (is_Some (run s)).

(** [isAtHITL]: the [HITLGate] is rendered, and its buttons are enabled
    while [hitlLoading] is false. *)
Definition isAtHITL (s : State) : bool :=
  bool_decide (run_status s = Some "waiting_hitl").

Definition gate_enabled (s : State) : bool :=
  body_rendered s && isAtHITL s && negb (hitlLoading s).

(** The state after the first render and its effects: [fetchAll()] has
    been called once and the interval is registered. *)
Definition mount : State :=
  {| run := None; artifacts := JNull; files := []; decisions := [];
     deploy := {| dep_status := "idle"; dep_urls := [] |};
     activityLog := []; loading := true; error := None;
     hitlLoading := false; hitlJustApproved := false;
     interval_live := true; inflight := 1; mounted := true |}.

(** ** Events *)

Inductive Decision := approved | changes_requested | rejected.

(** [disabled] of the button of a decision: the approve and reject buttons
    have [disabled={loading}], the changes-requested button
    [disabled={loading || !feedback.trim()}]. *)
Definition button_disabled (d : Decision) (loading : bool)
    (feedback : ustring) : bool :=
  match d with
  | approved | rejected => loading
  | changes_requested => loading || negb (truthy (trim feedback))
  end.

(** What runs without a click: the callback of the interval and the
    continuations of the awaited requests.  None of them waits for a
    render. *)
Inductive Continuation :=
| CTick
| CFetchAll (res : PollResults)
| CHitl (r : Settled HitlData)
| CExport (r : Settled json)
| CDeploy (r : Settled Deploy)
| CTeardown (r : Settled Deploy).

(** One of them on the cells as they are, without a render; [None] when
    the interval is cleared or no such request is in flight. *)
Definition cont_step (s : State) (c : Continuation) : option State :=
  match c with
  | CTick =>
      if interval_live s then Some (set_inflight (S (inflight s)) s) else None
  | CFetchAll res =>
      match inflight s with
      | O => None
      | S n => Some (fetchAll_settled res (set_inflight n s))
      end
  | CHitl r => if hitlLoading s then Some (handleHITL_settled r s) else None
  | CExport r => Some (handleExport_settled r s)
  | CDeploy r => Some (handleDeploy_settled r s)
  | CTeardown r => Some (handleTeardown_settled r s)
  end.

(** Several of them in a row, before the page renders again. *)
Fixpoint run_conts (s : State) (cs : list Continuation) : option State :=
  match cs with
  | [] => Some s
  | c :: cs' =>
      match cont_step s c with
      | Some s' => run_conts s' cs'
      | None => None
      end
  end.

(** What can happen to a mounted page, from one render to the next.  A
    click is made on a rendered page and is possible only when its
    control is rendered and enabled; a continuation only when its request
    is in flight.  The first six continuation events are followed by a
    render at once; [Batched] is any number of continuations that run
    before the page renders again, as when two responses arrive
    together. *)
Inductive Event :=
| Tick                                        (* the interval fires *)
| Refrescar                                   (* the refresh button *)
| FetchAllSettled (res : PollResults)         (* a poll cycle settles *)
| HITLSubmit (d : Decision) (feedback : ustring) (* a button of the gate *)
| HITLSettled (r : Settled HitlData)
| ExportSettled (r : Settled json)
| DeploySettled (r : Settled Deploy)
| TeardownSettled (r : Settled Deploy)
| CloseError                                  (* the button of the error box *)
| Unmount                                     (* cleanup of the first effect *)
| Batched (cs : list Continuation).           (* one render after them all *)

(** One event, up to and including the render and the effects that
    follow it.  [None]: the event cannot happen in this state.  The
    decision and the feedback of a submission travel to the server; here
    they decide whether the button is enabled.  The tab that shows the
    deploy panel only removes behaviours and is left out; the settled
    events of the deploy panel are possible whenever the page is
    mounted. *)
Definition step (s : State) (e : Event) : option State :=
  if negb (mounted s) then None else
  match e with
  | Tick =>
      if interval_live s then Some (set_inflight (S (inflight s)) s) else None
  | Refrescar =>
      if body_rendered s then Some (set_inflight (S (inflight s)) s) else None
  | FetchAllSettled res =>
      match inflight s with
      | O => None
      | S n => Some (effect_completed s (fetchAll_settled res (set_inflight n s)))
      end
  | HITLSubmit d feedback =>
      if gate_enabled s && negb (button_disabled d (hitlLoading s) feedback)
      then Some (handleHITL_start s) else None
  | HITLSettled r =>
      if hitlLoading s then Some (effect_completed s (handleHITL_settled r s))
      else None
  | ExportSettled r => Some (handleExport_settled r s)
  | DeploySettled r => Some (handleDeploy_settled r s)
  | TeardownSettled r => Some (handleTeardown_settled r s)
  | CloseError =>
      if body_rendered s && bool_decide (is_Some (error s))
      then Some (setError None s) else None
  | Unmount => Some (set_mounted false (clearInterval s))
  | Batched cs =>
      match run_conts s cs with
      | Some s' => Some (effect_completed s s')
      | None => None
      end
  end.

(** A sequence of events, [None] as soon as one of them cannot happen. *)
Fixpoint steps (s : State) (evs : list Event) : option State :=
  match evs with
  | [] => Some s
  | e :: evs' =>
      match step s e with
      | Some s' => steps s' evs'
      | None => None
      end
  end.

(** The states a mounted page can be in. *)
Definition reachable (s : State) : Prop :=
  ∃ evs, steps mount evs = Some s.

(** The continuations an event runs, and those of a sequence of events. *)
Definition continuations (e : Event) : list Continuation :=
  match e with
  | Tick => [CTick]
  | FetchAllSettled res => [CFetchAll res]
  | HITLSettled r => [CHitl r]
  | ExportSettled r => [CExport r]
  | DeploySettled r => [CDeploy r]
  | TeardownSettled r => [CTeardown r]
  | Batched cs => cs
  | Refrescar | HITLSubmit _ _ | CloseError | Unmount => []
  end.

Definition trace_continuations (evs : list Event) : list Continuation :=
  evs ≫= continuations.

(** ** [PipelineTracker] *)

Record Phase := {
  key : string;
  label : string;
  phase_icon : string;
  agents : list string;
}.

Definition PHASES : list Phase := [
  {| key := "planning"; label := "Planificación"; phase_icon := "🔍";
     agents := ["BA → PO → Architect → Evaluator"] |};
  {| key := "hitl_gate_1"; label := "Gate 1 — Revisión"; phase_icon := "🚦";
     agents := ["Aprobación humana de planificación"] |};
  {| key := "building"; label := "Construcción"; phase_icon := "⚙️";
     agents := ["Backend ∥ Frontend → QA"] |};
  {| key := "integration"; label := "Integración"; phase_icon := "🔗";
     agents := ["Validación cruzada de código"] |};
  {| key := "hitl_gate_2"; label := "Gate 2 — Revisión"; phase_icon := "🚦";
     agents := ["Aprobación humana de código"] |};
  {| key := "devops"; label := "DevOps"; phase_icon := "🚀";
     agents := ["Docker, Compose, nginx, README"] |};
  {| key := "done"; label := "Completado"; phase_icon := "✅"; agents := [] |}
].

Definition AGENT_PHASE : gmap string string :=
  list_to_map [
    ("BA Agent", "planning"); ("PO Agent", "planning");
    ("Architect", "planning"); ("Evaluator", "planning");
    ("HITL Gate 1", "hitl_gate_1"); ("Backend Builder", "building");
    ("Frontend Builder", "building"); ("QA Agent", "building");
    ("Integration Validator", "integration"); ("HITL Gate 2", "hitl_gate_2");
    ("DevOps Agent", "devops"); ("Pipeline", "done")
  ].

(** [Array.prototype.findIndex]: the position of the first element that
    satisfies [p], [-1] when there is none. *)
Fixpoint findIndex_from {A} (p : A → bool) (l : list A) (i : Z) : Z :=
  match l with
  | [] => (-1)%Z
  | x :: l' => if p x then i else findIndex_from p l' (i + 1)%Z
  end.

Definition findIndex {A} (p : A → bool) (l : list A) : Z :=
  findIndex_from p l 0%Z.

Definition phaseIndex (phase : string) : Z :=
  let idx := findIndex (λ p, String.eqb (key p) phase) PHASES in
  if Z.eqb idx (-1) then 0%Z else idx.

(** [obj[k] = v] on an object used as a map: an existing key keeps its
    place, a new key goes last.  [Object.entries] lists the keys in this
    order, except that keys that are array indices come first; such keys
    are not keys of [AGENT_PHASE], so the filter below drops them, and the
    order of the keys it keeps is the order here. *)
Fixpoint assign {A} (k : string) (v : A) (obj : list (string * A))
  : list (string * A) :=
  match obj with
  | [] => [(k, v)]
  | (k', v') :: rest =>
      if String.eqb k' k then (k', v) :: rest else (k', v') :: assign k v rest
  end.

(** [for (const entry of activityLog) latestByAgent[entry.agent] = entry] *)
Definition latestByAgent (activityLog : list ActivityEntry)
  : list (string * ActivityEntry) :=
  fold_left (λ obj entry, assign (agent entry) entry obj) activityLog [].

(** What the callback of [PHASES.map] computes for one phase before it
    renders it. *)
Record PhaseRow := {
  phase : Phase;
  isDone : bool;
  isCurrent : bool;
  isPending : bool;
  phaseAgents : list (string * ActivityEntry);
}.

Definition phase_row (current : Z) (latest : list (string * ActivityEntry))
    (i : nat) (ph : Phase) : PhaseRow :=
  {| phase := ph;
     isDone := Z.ltb (Z.of_nat i) current;
     isCurrent := Z.eqb (Z.of_nat i) current;
     isPending := Z.gtb (Z.of_nat i) current;
     phaseAgents :=
       List.filter (λ '(a, _), bool_decide (AGENT_PHASE !! a = Some (key ph)))
                   latest |}.

(** The timeline of [PipelineTracker({ run, activityLog })]. *)
Definition PipelineTracker (r : Run) (activityLog : list ActivityEntry)
  : list PhaseRow :=
  let current := phaseIndex (current_phase r) in
  let latest := latestByAgent activityLog in
  imap (phase_row current latest) PHASES.

(** The three classes the timeline distinguishes. *)
Inductive PhaseClass := ClsDone | ClsCurrent | ClsPending.

(** The class a row is rendered in: the nested conditionals of the
    component test [isDone] first, then [isCurrent]. *)
Definition row_class (row : PhaseRow) : PhaseClass :=
  if isDone row then ClsDone
  else if isCurrent row then ClsCurrent
  else ClsPending.

(** ** Sample runs and responses used by the examples *)

Definition sample_run (st ph ag : string) : Run :=
  {| status := st; current_phase := ph; current_agent := ag;
     brief := "inventory service"; num_requirements := 4;
     num_user_stories := 3; num_test_cases := 0;
     num_generated_files := 0; planning_iteration := 1 |}.

Definition sample_entry (ag msg : string) : ActivityEntry :=
  {| agent := ag; message := msg; detail := None;
     timestamp := Some (units "2025-01-01T10:00:00"); icon := "*" |}.

Definition http_error (code : Z) : Reason :=
  {| response_status := Some code; response_detail := None;
     err_message := "Request failed" |}.

(** A cycle in which the run fetch gives [r] and the other five succeed. *)
Definition poll_of (r : Settled Run) : PollResults :=
  {| runRes := r;
     artRes := Fulfilled (JObj [("requirements", JArr [JStr "REQ-001"])]);
     filesRes := Fulfilled (HasBody (Some [JStr "app/main.py"]));
     decRes := Fulfilled (HasBody None);
     depRes := Fulfilled {| dep_status := "idle"; dep_urls := [] |};
     actRes := Fulfilled (HasBody (Some [sample_entry "BA Agent" "done"])) |}.

Definition at_gate_1 : Run := sample_run "waiting_hitl" "hitl_gate_1" "".
Definition at_gate_2 : Run := sample_run "waiting_hitl" "hitl_gate_2" "".

(** The command is acknowledged without a [current_phase]. *)
Definition ack_plain : HitlData :=
  {| hd_status := "ok"; hd_current_phase := None |}.

(** The command is acknowledged with the phase after the gate. *)
Definition ack_building : HitlData :=
  {| hd_status := "running"; hd_current_phase := Some "building" |}.

Definition ack_already : HitlData :=
  {| hd_status := "already_processed"; hd_current_phase := None |}.

(** The first cycle shows the run waiting at gate 1, the user approves and
    the command is acknowledged. *)
Definition approve_at_gate_1 (ack : HitlData) : list Event :=
  [FetchAllSettled (poll_of (Fulfilled at_gate_1));
   HITLSubmit approved (units "looks good");
   HITLSettled (Fulfilled ack)].

(** One more cycle of the interval that still finds the run at gate 1. *)
Definition stale_cycle : list Event :=
  [Tick; FetchAllSettled (poll_of (Fulfilled at_gate_1))].

(** The run fetch of a cycle failed with HTTP 404. *)
Definition run_not_found (res : PollResults) : bool :=
  match runRes res with
  | Fulfilled _ => false
  | Rejected reason => is_404 reason
  end.



(** [current_phase] and [current_agent] of the merged view. *)
Definition view_phase (s : State) : option string := current_phase <$> run s.
Definition view_agent (s : State) : option string := current_agent <$> run s.

(** The state after an event, the state itself when the event cannot
    happen. *)
Definition next (s : State) (e : Event) : State := default s (step s e).

(** The state after a sequence of events from the first render. *)
Definition after (evs : list Event) : State := default mount (steps mount evs).

(** A decision at gate 2 has been acknowledged with [devops] as the next
    phase, and a cycle of the interval is in flight. *)
Definition ack_devops : HitlData :=
  {| hd_status := "running"; hd_current_phase := Some "devops" |}.

Definition decided_at_gate_2 : State :=
  after [FetchAllSettled (poll_of (Fulfilled at_gate_2));
         HITLSubmit rejected (units "fix endpoint");
         HITLSettled (Fulfilled ack_devops);
         Tick].

Definition back_to_building : Run := sample_run "running" "building" "Backend Builder".

(** A cycle whose run fetch fails with HTTP 404 while the other five
    succeed with fresh payloads. *)
Definition poll_404 : PollResults :=
  {| runRes := Rejected (http_error 404);
     artRes := Fulfilled (JObj [("requirements",
                                 JArr [JStr "REQ-001"; JStr "REQ-002"])]);
     filesRes := Fulfilled (HasBody (Some [JStr "app/main.py"; JStr "app/db.py"]));
     decRes := Fulfilled (HasBody (Some [JStr "use sqlite"]));
     depRes := Fulfilled {| dep_status := "running"; dep_urls := [] |};
     actRes := Fulfilled (HasBody (Some [sample_entry "QA Agent" "tests written"])) |}.

(** A cycle in which only the artifacts fetch fails. *)
Definition poll_without_artifacts : PollResults :=
  {| runRes := Fulfilled back_to_building;
     artRes := Rejected (http_error 500);
     filesRes := Fulfilled (HasBody (Some [JStr "app/main.py"; JStr "app/db.py"]));
     decRes := Fulfilled (HasBody (Some [JStr "use sqlite"]));
     depRes := Fulfilled {| dep_status := "running"; dep_urls := [] |};
     actRes := Fulfilled (HasBody (Some [sample_entry "QA Agent" "tests written"])) |}.

(** The page shows the run at gate 1 and a cycle is in flight. *)
Definition watching_gate_1 : State :=
  after [FetchAllSettled (poll_of (Fulfilled at_gate_1)); Tick].

(** The view shows completion of the run, nothing is in flight. *)
Definition completed_run : Run := sample_run "completed" "done" "".

(** During the last phase one cycle is in flight. *)
Definition until_devops : list Event :=
  [FetchAllSettled
     (poll_of (Fulfilled (sample_run "running" "devops" "DevOps Agent")));
   Tick].

Definition in_devops : State := after until_devops.


(** The second effect has done its work in this state: a view that shows
    [completed] has no live interval. *)
Definition completed_is_idle (s : State) : Prop :=
  run_status s = Some "completed" → interval_live s = false.

(** The keys of the phases in the order of [PHASES]. *)
Definition phase_keys : list string :=
  ["planning"; "hitl_gate_1"; "building"; "integration"; "hitl_gate_2";
   "devops"; "done"].

(** The class of a phase given its index and the index of the current
    phase. *)
Definition classify (i current : Z) : PhaseClass :=
  if Z.ltb i current then ClsDone
  else if Z.eqb i current then ClsCurrent
  else ClsPending.

(** Key and class of every row of a timeline. *)
Definition classified (rows : list PhaseRow) : list (string * PhaseClass) :=
  (λ row, (key (phase row), row_class row)) <$> rows.

Definition sample_log : list ActivityEntry :=
  [sample_entry "BA Agent" "reading the brief";
   sample_entry "Backend Builder" "writing the API";
   sample_entry "BA Agent" "requirements ready";
   sample_entry "QA Agent" "writing tests"].

(** ** Predicates used by the properties of the page *)

(** While the flag is set, a run view that is present shows status
    [running] and no agent. *)
Definition overlay_masks (s : State) : Prop :=
  hitlJustApproved s = true →
  match run s with
  | Some r => status r = "running" ∧ current_agent r = ""
  | None => True
  end.

Definition is_cfetch (c : Continuation) : bool :=
  match c with CFetchAll _ => true | _ => false end.

Definition is_chitl (c : Continuation) : bool :=
  match c with CHitl _ => true | _ => false end.

(** The event runs the continuation of a decision. *)
Definition is_hitl_settled (e : Event) : bool :=
  existsb is_chitl (continuations e).

(** The rejection of a request that never got a response. *)
Definition network_error : Reason :=
  {| response_status := None; response_detail := None;
     err_message := "Network Error" |}.

(** The rejection of a command with a reason given by the server. *)
Definition refused (why : string) : Reason :=
  {| response_status := Some 400%Z; response_detail := Some why;
     err_message := "Request failed with status code 400" |}.

(** A decision at gate 2 is in flight, and the cycle that settles next
    already finds the run completed. *)
Definition until_decision_at_gate_2 : list Event :=
  [FetchAllSettled (poll_of (Fulfilled at_gate_2));
   HITLSubmit approved (units "ship it");
   Tick;
   FetchAllSettled (poll_of (Fulfilled completed_run))].

Definition completed_before_ack : State := after until_decision_at_gate_2.

(** A decision at gate 1 has been acknowledged and a cycle is in flight. *)
Definition until_approved_at_gate_1 : list Event :=
  approve_at_gate_1 ack_plain ++ [Tick].

Definition approved_at_gate_1 : State := after until_approved_at_gate_1.

(** The page shows the run at gate 1, nothing has been clicked. *)
Definition until_gate_1 : list Event :=
  [FetchAllSettled (poll_of (Fulfilled at_gate_1)); Tick].

(** ** What [PipelineTracker] renders from a row *)

(** The latest entry of an agent in the log. *)
Definition latest_of (a : string) (activityLog : list ActivityEntry)
  : option ActivityEntry :=
  last (filter (λ entry, agent entry = a) activityLog).

(** [isCurrent && run.status === 'waiting_hitl'] and
    [isCurrent && run.status === 'running']: the two badges of a row. *)
Definition badge_waiting (r : Run) (row : PhaseRow) : bool :=
  isCurrent row && String.eqb (status r) "waiting_hitl".

Definition badge_running (r : Run) (row : PhaseRow) : bool :=
  isCurrent row && String.eqb (status r) "running".

(** The agents rendered as chips of a finished phase:
    [isDone && phaseAgents.length > 0 && phaseAgents.map(...)]. *)
Definition done_chips (row : PhaseRow) : list (string * ActivityEntry) :=
  if isDone row && Nat.ltb 0 (length (phaseAgents row))
  then phaseAgents row else [].

(** The agents rendered as live rows of the current phase:
    [isCurrent && run.status === 'running' && phaseAgents.length > 0
     && phaseAgents.map(...)]. *)
Definition live_agents (r : Run) (row : PhaseRow)
  : list (string * ActivityEntry) :=
  if isCurrent row && String.eqb (status r) "running"
     && Nat.ltb 0 (length (phaseAgents row))
  then phaseAgents row else [].

(** [s.slice(a, b)] for indices that are not negative: the code units
    at positions [a] to [b - 1], as many of them as the string has. *)
Definition slice (a b : nat) (s : ustring) : ustring :=
  take (b - a) (drop a s).

(** [timestamp.slice(11, 19)] *)
Definition clock (ts : ustring) : ustring := slice 11 19 ts.

(** [entry.timestamp?.slice(11, 19) || '']: the clock of the entry, the
    empty string when the entry has no timestamp. *)
Definition entry_time (e : ActivityEntry) : ustring :=
  match timestamp e with
  | Some ts => clock ts
  | None => []
  end.

(** A run that differs from [r] in its phase only. *)
Definition with_phase (ph : string) (r : Run) : Run :=
  {| status := status r; current_phase := ph;
     current_agent := current_agent r; brief := brief r;
     num_requirements := num_requirements r;
     num_user_stories := num_user_stories r;
     num_test_cases := num_test_cases r;
     num_generated_files := num_generated_files r;
     planning_iteration := planning_iteration r |}.

(** The third phase of the table. *)
Definition building_phase : Phase :=
  {| key := "building"; label := "Construcción"; phase_icon := "⚙️";
     agents := ["Backend ∥ Frontend → QA"] |}.

(** ** [HomePage]: the brief and its submission *)

(** [s.split(/\s+/)]: the pieces between the maximal runs of white space.
    [cur] holds the piece being read, last code unit first; [in_ws] says
    that the previous code unit was white space.  A run at the start or
    at the end leaves an empty piece there, and the empty string gives
    one empty piece. *)
Fixpoint split_ws_from (cur : ustring) (in_ws : bool) (s : ustring)
  : list ustring :=
  match s with
  | [] => [reverse cur]
  | c :: s' =>
      if isWhiteSpace c then
        if in_ws then split_ws_from [] true s'
        else reverse cur :: split_ws_from [] true s'
      else split_ws_from (c :: cur) false s'
  end.

Definition split_ws (s : ustring) : list ustring := split_ws_from [] false s.

(** [brief.split(/\s+/).filter(Boolean).length] *)
Definition word_count (s : ustring) : nat :=
  length (List.filter truthy (split_ws s)).

(** The state of the page: the three cells and the path it has navigated
    to, if any. *)
Record Home := {
  hp_brief : ustring;
  hp_loading : bool;
  hp_error : option string;
  hp_navigated : option string;
}.

(** The start button is [disabled={loading || !brief.trim()}]. *)
Definition start_disabled (h : Home) : bool :=
  hp_loading h || negb (truthy (trim (hp_brief h))).

(** The text under the textarea:
    [brief.length > 0 && `${...length} palabras`]. *)
Definition word_label (h : Home) : option nat :=
  match hp_brief h with
  | [] => None
  | _ :: _ => Some (word_count (hp_brief h))
  end.

(** [handleSubmit] up to the [await]; the boolean says whether [startRun]
    was called. *)
Definition handleSubmit_start (h : Home) : Home * bool :=
  if negb (truthy (trim (hp_brief h))) then (h, false)
  else ({| hp_brief := hp_brief h; hp_loading := true; hp_error := None;
           hp_navigated := hp_navigated h |}, true).

(** [`/runs/${data.run_id}`]: a missing [run_id] prints as [undefined]. *)
Definition run_path (run_id : option string) : string :=
  "/runs/" ++ default "undefined" run_id.

(** [handleSubmit] from the point where [startRun] has settled. *)
Definition handleSubmit_settled (r : Settled (option string)) (h : Home)
  : Home :=
  match r with
  | Fulfilled run_id =>
      {| hp_brief := hp_brief h; hp_loading := hp_loading h;
         hp_error := hp_error h; hp_navigated := Some (run_path run_id) |}
  | Rejected e =>
      {| hp_brief := hp_brief h; hp_loading := false;
         hp_error := Some (error_text e); hp_navigated := hp_navigated h |}
  end.

(** A fetch result whose run fetch is fulfilled with a status other than
    [waiting_hitl], and an event that runs the continuation of one. *)
Definition cont_reports_progress (c : Continuation) : Prop :=
  match c with
  | CFetchAll res =>
      match runRes res with
      | Fulfilled incoming => status incoming ≠ "waiting_hitl"
      | Rejected _ => False
      end
  | _ => False
  end.

Definition reports_progress (e : Event) : Prop :=
  Exists cont_reports_progress (continuations e).

(** An acknowledgement of a decision other than [already_processed], and
    an event that runs the continuation of one. *)
Definition cont_acknowledges (c : Continuation) : Prop :=
  match c with
  | CHitl (Fulfilled data) => hd_status data ≠ "already_processed"
  | _ => False
  end.

Definition acknowledges (e : Event) : Prop :=
  Exists cont_acknowledges (continuations e).

(** ** [DeployPanel] *)

(** The body of [GET /deploy/check]. *)
Record ComposeInfo := {
  compose_tool : option string;
  instructions : option (list string);
}.

(** The state cells of the panel. *)
Record Panel := {
  exportResult : option json;
  exporting : bool;
  deploying : bool;
  composeInfo : option ComposeInfo;
  apiKey : ustring;
}.

(** [Boolean(v)] of a JSON value. *)
Definition json_truthy (v : json) : bool :=
  match v with
  | JNull => false
  | JBool b => b
  | JNum n => negb (Z.eqb n 0)
  | JStr s => negb (String.eqb s "")
  | JArr _ | JObj _ => true
  end.

(** [isCompleted], [isRunning] and [noCompose]. *)
Definition isCompleted (runStatus : string) : bool :=
  String.eqb runStatus "completed".

Definition isRunning (d : Deploy) : bool :=
  String.eqb (dep_status d) "running"
  || String.eqb (dep_status d) "already_running".

Definition noCompose (p : Panel) : bool :=
  match composeInfo p with
  | Some info =>
      match compose_tool info with
      | Some tool => String.eqb tool ""
      | None => true
      end
  | None => false
  end.

(** The panel as first rendered. *)
Definition panel_mount : Panel :=
  {| exportResult := None; exporting := false; deploying := false;
     composeInfo := None; apiKey := [] |}.

(** What can happen to the panel; a click carries the props of the render
    in which it happens. *)
Inductive PanelEvent :=
| ExportClick (runStatus : string)
| ExportReturned (result : option json)   (* [await onExport()] resumes *)
| DeployClick (d : Deploy)
| DeployReturned                          (* [await onDeploy(apiKey)] resumes *)
| TeardownClick (d : Deploy)
| ComposeChecked (info : ComposeInfo)     (* [deployCheck()] is fulfilled *)
| ApiKeyTyped (k : ustring).

(** One event of the panel; [None] when the button is not rendered or is
    disabled, or nothing is awaited.
    - [handleExport]: [setExporting(true)], then after the [await]
      [if (result) setExportResult(result); setExporting(false)];
    - [handleDeploy]: [setDeploying(true)], then [setDeploying(false)];
    - the export button has [disabled={exporting || !isCompleted}], the
      deploy button is rendered when [!noCompose && !isRunning] with
      [disabled={deploying || !exportResult}], the stop button when
      [!noCompose && isRunning]. *)
Definition panel_step (p : Panel) (e : PanelEvent) : option Panel :=
  match e with
  | ExportClick runStatus =>
      if negb (exporting p || negb (isCompleted runStatus))
      then Some {| exportResult := exportResult p; exporting := true;
                   deploying := deploying p; composeInfo := composeInfo p;
                   apiKey := apiKey p |}
      else None
  | ExportReturned result =>
      if exporting p
      then Some {| exportResult :=
                     match result with
                     | Some v => if json_truthy v then Some v
                                 else exportResult p
                     | None => exportResult p
                     end;
                   exporting := false; deploying := deploying p;
                   composeInfo := composeInfo p; apiKey := apiKey p |}
      else None
  | DeployClick d =>
      if negb (noCompose p) && negb (isRunning d)
         && negb (deploying p || negb (bool_decide (is_Some (exportResult p))))
      then Some {| exportResult := exportResult p; exporting := exporting p;
                   deploying := true; composeInfo := composeInfo p;
                   apiKey := apiKey p |}
      else None
  | DeployReturned =>
      if deploying p
      then Some {| exportResult := exportResult p; exporting := exporting p;
                   deploying := false; composeInfo := composeInfo p;
                   apiKey := apiKey p |}
      else None
  | TeardownClick d =>
      if negb (noCompose p) && isRunning d then Some p else None
  | ComposeChecked info =>
      Some {| exportResult := exportResult p; exporting := exporting p;
              deploying := deploying p; composeInfo := Some info;
              apiKey := apiKey p |}
  | ApiKeyTyped k =>
      Some {| exportResult := exportResult p; exporting := exporting p;
              deploying := deploying p; composeInfo := composeInfo p;
              apiKey := k |}
  end.

Fixpoint panel_steps (p : Panel) (evs : list PanelEvent) : option Panel :=
  match evs with
  | [] => Some p
  | e :: evs' =>
      match panel_step p e with
      | Some p' => panel_steps p' evs'
      | None => None
      end
  end.

(** What [handleExport] of the page returns to the panel: the body of the
    response, or nothing when the request failed. *)
Definition handleExport_result (r : Settled json) : option json :=
  match r with
  | Fulfilled data => Some data
  | Rejected _ => None
  end.

(** A session on the panel: the export of a completed run succeeds and
    the deployment is started. *)
Definition export_then_deploy : list PanelEvent :=
  [ComposeChecked {| compose_tool := Some "docker-compose";
                     instructions := None |};
   ExportClick "completed";
   ExportReturned (Some (JObj [("files_written", JNum 12)]))].

(** Every fulfilled response of which the cycle reads a member has a
    body. *)
Definition bodies_present (res : PollResults) : Prop :=
  filesRes res ≠ Fulfilled NoBody
  ∧ decRes res ≠ Fulfilled NoBody
  ∧ actRes res ≠ Fulfilled NoBody.

(** A cycle in which all six fetches are fulfilled and the files response
    has no body. *)
Definition poll_files_without_body : PollResults :=
  {| runRes := Fulfilled back_to_building;
     artRes := Fulfilled (JObj [("requirements",
                                 JArr [JStr "REQ-001"; JStr "REQ-002"])]);
     filesRes := Fulfilled NoBody;
     decRes := Fulfilled (HasBody (Some [JStr "use sqlite"]));
     depRes := Fulfilled {| dep_status := "running"; dep_urls := [] |};
     actRes := Fulfilled (HasBody (Some [sample_entry "QA Agent" "tests written"])) |}.

(** The continuation of a cycle whose run fetch failed with HTTP 404. *)
Definition cont_not_found (c : Continuation) : bool :=
  match c with
  | CFetchAll res => run_not_found res
  | _ => false
  end.

(** A decision at gate 2 has been sent, a cycle is in flight. *)
Definition until_sent_at_gate_2 : list Event :=
  [FetchAllSettled (poll_of (Fulfilled at_gate_2));
   HITLSubmit approved (units "ship it");
   Tick].

(** The cycle that reports [completed] and the acknowledgement of the
    decision settle before the page renders again. *)
Definition completed_with_ack : Event :=
  Batched [CFetchAll (poll_of (Fulfilled completed_run));
           CHitl (Fulfilled ack_plain)].

(** The event is a batch of continuations. *)
Definition is_batched (e : Event) : bool :=
  match e with Batched _ => true | _ => false end.

(** * Properties *)

(** ** Frame lemmas *)

Lemma apply_rest_frame res s :
  run (apply_rest res s) = run s
  ∧ loading (apply_rest res s) = loading s
  ∧ error (apply_rest res s) = error s
  ∧ hitlLoading (apply_rest res s) = hitlLoading s
  ∧ hitlJustApproved (apply_rest res s) = hitlJustApproved s
  ∧ interval_live (apply_rest res s) = interval_live s
  ∧ inflight (apply_rest res s) = inflight s
  ∧ mounted (apply_rest res s) = mounted s.
Proof.
  unfold apply_rest.
  destruct (artRes res), (filesRes res) as [[|?]|?],
    (decRes res) as [[|?]|?], (depRes res), (actRes res) as [[|?]|?];
    repeat split.
Qed.

Lemma effect_completed_frame old new :
  run (effect_completed old new) = run new
  ∧ artifacts (effect_completed old new) = artifacts new
  ∧ files (effect_completed old new) = files new
  ∧ decisions (effect_completed old new) = decisions new
  ∧ deploy (effect_completed old new) = deploy new
  ∧ activityLog (effect_completed old new) = activityLog new
  ∧ loading (effect_completed old new) = loading new
  ∧ error (effect_completed old new) = error new
  ∧ hitlLoading (effect_completed old new) = hitlLoading new
  ∧ hitlJustApproved (effect_completed old new) = hitlJustApproved new
  ∧ inflight (effect_completed old new) = inflight new
  ∧ mounted (effect_completed old new) = mounted new.
Proof.
  unfold effect_completed. repeat case_decide; repeat split.
Qed.

Lemma effect_completed_interval old new :
  interval_live new = false → interval_live (effect_completed old new) = false.
Proof.
  unfold effect_completed. intros H. repeat case_decide; simpl; auto.
Qed.

(** A settled cycle is the only thing a [FetchAllSettled] step does. *)
Lemma step_fetch_inv s res s' :
  step s (FetchAllSettled res) = Some s' →
  ∃ n, inflight s = S n ∧ mounted s = true
       ∧ s' = effect_completed s (fetchAll_settled res (set_inflight n s)).
Proof.
  unfold step. destruct (mounted s); simpl; [|discriminate].
  destruct (inflight s) as [|n]; [discriminate|].
  intros [= <-]. eauto.
Qed.

Lemma step_hitl_settled_inv s r s' :
  step s (HITLSettled r) = Some s' →
  hitlLoading s = true ∧ mounted s = true
  ∧ s' = effect_completed s (handleHITL_settled r s).
Proof.
  unfold step. destruct (mounted s); simpl; [|discriminate].
  destruct (hitlLoading s); [|discriminate].
  intros [= <-]. auto.
Qed.

Lemma step_hitl_submit_inv s d fb s' :
  step s (HITLSubmit d fb) = Some s' →
  gate_enabled s = true ∧ mounted s = true ∧ s' = handleHITL_start s.
Proof.
  unfold step. destruct (mounted s); simpl; [|discriminate].
  destruct (gate_enabled s); [|discriminate].
  destruct (negb (button_disabled d (hitlLoading s) fb)); [|discriminate].
  intros [= <-]. auto.
Qed.

(** The button clicked was not disabled. *)
Lemma step_hitl_submit_button s d fb s' :
  step s (HITLSubmit d fb) = Some s' →
  button_disabled d (hitlLoading s) fb = false.
Proof.
  unfold step. destruct (mounted s); simpl; [|discriminate].
  destruct (gate_enabled s); [|discriminate].
  destruct (button_disabled d (hitlLoading s) fb); [discriminate|reflexivity].
Qed.

(** A render in which [run?.status] has not changed runs no effect. *)
Lemma effect_completed_same old new :
  run_status old = run_status new → effect_completed old new = new.
Proof.
  intros Hsame. unfold effect_completed.
  destruct (decide (run_status old = run_status new));
    [reflexivity|contradiction].
Qed.

(** After the render, the interval is cleared if it was before or if the
    status that is rendered is [completed]. *)
Lemma effect_completed_interval_iff old new :
  run_status old ≠ Some "completed" →
  interval_live (effect_completed old new) = false
  ↔ (interval_live new = false ∨ run_status new = Some "completed").
Proof.
  intros Hnc. unfold effect_completed.
  case_decide as Hsame; [|case_decide as Hdone].
  - split; [auto|]. intros [H|H]; [exact H|].
    rewrite <- Hsame in H. contradiction.
  - split; [auto|reflexivity].
  - split; [auto|]. intros [H|H]; [exact H|contradiction].
Qed.

(** Every event is a click, the unmounting, or some continuations
    followed by one render. *)
Lemma step_cases s e s' :
  step s e = Some s' →
  (∃ s1, run_conts s (continuations e) = Some s1
         ∧ s' = effect_completed s s1)
  ∨ (e = Refrescar ∧ s' = set_inflight (S (inflight s)) s)
  ∨ (∃ d fb, e = HITLSubmit d fb ∧ s' = handleHITL_start s)
  ∨ (e = CloseError ∧ s' = setError None s)
  ∨ (e = Unmount ∧ s' = set_mounted false (clearInterval s)).
Proof.
  unfold step. destruct (mounted s); simpl; [|discriminate].
  destruct e; simpl.
  - destruct (interval_live s); [|discriminate]. intros [= <-].
    left. eexists. split; [reflexivity|].
    symmetry. apply effect_completed_same. reflexivity.
  - destruct (body_rendered s); [|discriminate]. intros [= <-]. auto.
  - destruct (inflight s) as [|n]; [discriminate|]. intros [= <-].
    left. eauto.
  - destruct (gate_enabled s && _); [|discriminate]. intros [= <-].
    right. right. left. eauto.
  - destruct (hitlLoading s); [|discriminate]. intros [= <-].
    left. eauto.
  - intros [= <-]. left. eexists. split; [reflexivity|].
    symmetry. apply effect_completed_same. destruct r; reflexivity.
  - intros [= <-]. left. eexists. split; [reflexivity|].
    symmetry. apply effect_completed_same. destruct r; reflexivity.
  - intros [= <-]. left. eexists. split; [reflexivity|].
    symmetry. apply effect_completed_same. destruct r; reflexivity.
  - destruct (body_rendered s && _); [|discriminate]. intros [= <-]. auto 6.
  - intros [= <-]. auto 6.
  - destruct (run_conts s cs) as [s1|]; [|discriminate]. intros [= <-].
    left. eauto.
Qed.

(** A property that every continuation allowed by [Q] keeps is kept by
    any number of them. *)
Lemma run_conts_keep (P : State → Prop) (Q : Continuation → Prop) :
  (∀ s c s', Q c → P s → cont_step s c = Some s' → P s') →
  ∀ cs s s', Forall Q cs → P s → run_conts s cs = Some s' → P s'.
Proof.
  intros Hone. induction cs as [|c cs IH]; intros s s' Hall HP Hrun;
    simpl in Hrun.
  - injection Hrun as <-. exact HP.
  - destruct (cont_step s c) as [s1|] eqn:Hc; [|discriminate].
    apply Forall_cons in Hall as [Hq Hall].
    eapply IH; [exact Hall| |exact Hrun]. eapply Hone; eauto.
Qed.

(** The same for events and sequences of events. *)
Lemma steps_keep (P : State → Prop) (Q : Event → Prop) :
  (∀ s e s', Q e → P s → step s e = Some s' → P s') →
  ∀ evs s s', Forall Q evs → P s → steps s evs = Some s' → P s'.
Proof.
  intros Hone. induction evs as [|e evs IH]; intros s s' Hall HP Hsteps;
    simpl in Hsteps.
  - injection Hsteps as <-. exact HP.
  - destruct (step s e) as [s1|] eqn:He; [|discriminate].
    apply Forall_cons in Hall as [Hq Hall].
    eapply IH; [exact Hall| |exact Hsteps]. eapply Hone; eauto.
Qed.

Lemma trace_continuations_cons e evs :
  trace_continuations (e :: evs)
  = (continuations e ++ trace_continuations evs)%list.
Proof. reflexivity. Qed.

(** A single continuation event is a batch of one. *)
Lemma single_is_batch s e c :
  continuations e = [c] → step s e = step s (Batched [c]).
Proof.
  unfold step. destruct (mounted s); simpl; [|reflexivity].
  destruct e; simpl; intros H; try discriminate H;
    try (injection H as <-); simpl.
  - destruct (interval_live s); [|reflexivity].
    rewrite effect_completed_same by reflexivity. reflexivity.
  - destruct (inflight s); reflexivity.
  - destruct (hitlLoading s); reflexivity.
  - rewrite effect_completed_same by (destruct r; reflexivity). reflexivity.
  - rewrite effect_completed_same by (destruct r; reflexivity). reflexivity.
  - rewrite effect_completed_same by (destruct r; reflexivity). reflexivity.
  - subst cs. reflexivity.
Qed.

(** ** The overlay against a poll result *)

(** C1.  A poll result that arrives while the overlay flag is set and whose
    status is not [waiting_hitl] clears the flag and becomes the merged view
    as it is, with its own [current_phase], whatever the view showed
    before. *)
Theorem poll_supersedes_overlay s res incoming s' :
  hitlJustApproved s = true →
  runRes res = Fulfilled incoming →
  status incoming ≠ "waiting_hitl" →
  step s (FetchAllSettled res) = Some s' →
  run s' = Some incoming
  ∧ view_phase s' = Some (current_phase incoming)
  ∧ hitlJustApproved s' = false.
Proof.
  intros Hflag Hrun Hst Hstep.
  apply step_fetch_inv in Hstep as (n & _ & _ & ->).
  destruct (effect_completed_frame s
              (fetchAll_settled res (set_inflight n s)))
    as (-> & _ & _ & _ & _ & _ & _ & _ & _ & -> & _).
  unfold view_phase.
  destruct (effect_completed_frame s
              (fetchAll_settled res (set_inflight n s))) as (-> & _).
  unfold fetchAll_settled. rewrite Hrun. simpl.
  destruct (apply_rest_frame res (apply_run incoming (set_inflight n s)))
    as (-> & _ & _ & _ & -> & _).
  unfold apply_run. simpl. rewrite Hflag.
  apply String.eqb_neq in Hst. rewrite Hst. simpl. auto.
Qed.

Lemma poll_supersedes_overlay_witness :
  run (next decided_at_gate_2
         (FetchAllSettled (poll_of (Fulfilled back_to_building))))
    = Some back_to_building
  ∧ view_phase (next decided_at_gate_2
         (FetchAllSettled (poll_of (Fulfilled back_to_building))))
    = Some "building"
  ∧ hitlJustApproved (next decided_at_gate_2
         (FetchAllSettled (poll_of (Fulfilled back_to_building))))
    = false.
Proof.
  apply (poll_supersedes_overlay decided_at_gate_2
           (poll_of (Fulfilled back_to_building)) back_to_building).
  - vm_compute. reflexivity.
  - reflexivity.
  - discriminate.
  - vm_compute. reflexivity.
Defined.

(** The scenario of the rejected build: the view predicted [devops], the
    next poll reports [building] and the view follows it backwards. *)
Example rejected_at_gate_2_moves_back :
  view_phase decided_at_gate_2 = Some "devops"
  ∧ hitlJustApproved decided_at_gate_2 = true
  ∧ phaseIndex "building" = 2%Z ∧ phaseIndex "devops" = 5%Z
  ∧ view_phase (next decided_at_gate_2
       (FetchAllSettled (poll_of (Fulfilled back_to_building))))
    = Some "building".
Proof. vm_compute. repeat split. Qed.

(** What a poll result that still reports [waiting_hitl] is merged into
    while the flag is set: status and agent are masked, and the phase is
    predicted from the phase the view showed before this result, when that
    was a gate. *)
Lemma stale_poll_masked_view s res incoming s' :
  hitlJustApproved s = true →
  runRes res = Fulfilled incoming →
  status incoming = "waiting_hitl" →
  step s (FetchAllSettled res) = Some s' →
  run_status s' = Some "running"
  ∧ view_agent s' = Some ""
  ∧ view_phase s' =
      Some (if prev_phase_is (run s) "hitl_gate_1" then "building"
            else if prev_phase_is (run s) "hitl_gate_2" then "devops"
            else current_phase incoming)
  ∧ hitlJustApproved s' = true.
Proof.
  intros Hflag Hrun Hst Hstep.
  apply step_fetch_inv in Hstep as (n & _ & _ & ->).
  unfold run_status, view_agent, view_phase.
  destruct (effect_completed_frame s
              (fetchAll_settled res (set_inflight n s)))
    as (-> & _ & _ & _ & _ & _ & _ & _ & _ & -> & _).
  unfold fetchAll_settled. rewrite Hrun. simpl.
  destruct (apply_rest_frame res (apply_run incoming (set_inflight n s)))
    as (-> & _ & _ & _ & -> & _).
  unfold apply_run. simpl. rewrite Hflag, Hst. simpl. auto.
Qed.

(** C2.  The masking of stale results does not last: after an approval at
    gate 1 the first cycle that still reports the gate is shown as
    [building], and the second such cycle, in a row, is shown with the
    phase of the gate again, the flag still set.  The predicted phase is
    computed from the phase of the view, which the first masked result has
    already moved off the gate. *)
Theorem second_stale_poll_shows_gate :
  ∃ s1 s2,
    steps mount (approve_at_gate_1 ack_plain ++ stale_cycle) = Some s1
    ∧ steps s1 stale_cycle = Some s2
    ∧ hitlJustApproved s1 = true ∧ run_status s1 = Some "running"
    ∧ view_phase s1 = Some "building"
    ∧ hitlJustApproved s2 = true ∧ run_status s2 = Some "running"
    ∧ view_phase s2 = Some "hitl_gate_1".
Proof.
  eexists _, _. split; [vm_compute; reflexivity|].
  split; [vm_compute; reflexivity|].
  vm_compute. repeat split.
Qed.

(** The regression does not depend on what the acknowledgement said:
    whatever the view shows when the flag is set, of two consecutive
    cycles that report the run waiting at gate 1 at least one is shown
    with the phase of the gate. *)
Lemma two_stale_polls_show_gate s res incoming s1 s1' s2 :
  hitlJustApproved s = true →
  runRes res = Fulfilled incoming →
  status incoming = "waiting_hitl" →
  current_phase incoming = "hitl_gate_1" →
  step s (FetchAllSettled res) = Some s1 →
  step s1 Tick = Some s1' →
  step s1' (FetchAllSettled res) = Some s2 →
  view_phase s1 = Some "hitl_gate_1" ∨ view_phase s2 = Some "hitl_gate_1".
Proof.
  intros Hflag Hrun Hst Hph H1 Ht H2.
  destruct (stale_poll_masked_view s res incoming s1 Hflag Hrun Hst H1)
    as (_ & _ & Hp1 & Hflag1).
  assert (Hs1' : run s1' = run s1 ∧ hitlJustApproved s1' = true).
  { unfold step in Ht. destruct (mounted s1); simpl in Ht; [|discriminate].
    destruct (interval_live s1); [|discriminate].
    injection Ht as <-. simpl. auto. }
  destruct Hs1' as [Hrun1' Hflag1'].
  destruct (stale_poll_masked_view s1' res incoming s2 Hflag1' Hrun Hst H2)
    as (_ & _ & Hp2 & _).
  rewrite Hrun1' in Hp2. rewrite Hph in Hp1, Hp2.
  unfold view_phase in Hp1 |- *.
  destruct (run s1) as [p1|]; simpl in Hp1; [|discriminate].
  injection Hp1 as Hp1. unfold prev_phase_is in Hp2 at 1 2.
  rewrite Hp1 in Hp2.
  destruct (prev_phase_is (run s) "hitl_gate_1");
    [right; exact Hp2|].
  destruct (prev_phase_is (run s) "hitl_gate_2");
    [right; exact Hp2|].
  left. simpl. rewrite Hp1. reflexivity.
Qed.

(** When the acknowledgement itself carries [building], already the first
    stale result is shown with the phase of the gate. *)
Example first_stale_poll_after_building_ack :
  ∃ s0 s1,
    steps mount (approve_at_gate_1 ack_building) = Some s0
    ∧ steps s0 stale_cycle = Some s1
    ∧ view_phase s0 = Some "building"
    ∧ hitlJustApproved s1 = true
    ∧ view_phase s1 = Some "hitl_gate_1".
Proof.
  eexists _, _. split; [vm_compute; reflexivity|].
  split; [vm_compute; reflexivity|].
  vm_compute. repeat split.
Qed.

(** ** Submitting a decision *)

(** The claim of C3 as stated fails: the command is acknowledged without a
    phase, and the view keeps the phase of the gate. *)
Lemma approval_without_phase_keeps_gate :
  ∃ s0 s2,
    steps mount [FetchAllSettled (poll_of (Fulfilled at_gate_1))] = Some s0
    ∧ run s0 = Some at_gate_1
    ∧ steps s0 [HITLSubmit approved (units "looks good");
                HITLSettled (Fulfilled ack_plain)] = Some s2
    ∧ hd_status ack_plain ≠ "already_processed"
    ∧ run_status s2 = Some "running"
    ∧ view_phase s2 = Some "hitl_gate_1"
    ∧ view_phase s2 ≠ Some "building".
Proof.
  eexists _, _. split; [vm_compute; reflexivity|].
  split; [reflexivity|].
  split; [vm_compute; reflexivity|].
  vm_compute. repeat split; discriminate.
Qed.

(** C3 (amended).  Right after a decision sent at gate 1 is acknowledged
    (and not as [already_processed]), the view shows status [running], no
    agent, and the phase of the acknowledgement when it carries a non-empty
    one -- [building] when it says [building] -- and the phase of the gate
    otherwise; the flag is set. *)
Theorem submit_shows_acknowledged_phase s d fb data s1 s2 p :
  run s = Some p →
  current_phase p = "hitl_gate_1" →
  status p = "waiting_hitl" →
  step s (HITLSubmit d fb) = Some s1 →
  step s1 (HITLSettled (Fulfilled data)) = Some s2 →
  hd_status data ≠ "already_processed" →
  run_status s2 = Some "running"
  ∧ view_agent s2 = Some ""
  ∧ view_phase s2 = Some (js_or (hd_current_phase data) "hitl_gate_1")
  ∧ (hd_current_phase data = Some "building" → view_phase s2 = Some "building")
  ∧ hitlJustApproved s2 = true.
Proof.
  intros Hrun Hph Hst H1 H2 Hnot.
  apply step_hitl_submit_inv in H1 as (_ & _ & ->).
  apply step_hitl_settled_inv in H2 as (_ & _ & ->).
  unfold run_status, view_agent, view_phase.
  destruct (effect_completed_frame (handleHITL_start s)
              (handleHITL_settled (Fulfilled data) (handleHITL_start s)))
    as (-> & _ & _ & _ & _ & _ & _ & _ & _ & -> & _).
  unfold handleHITL_settled.
  apply String.eqb_neq in Hnot. rewrite Hnot. simpl.
  rewrite Hrun. simpl. rewrite Hph.
  repeat split. intros ->. reflexivity.
Qed.

Lemma submit_shows_acknowledged_phase_witness :
  let s0 := after [FetchAllSettled (poll_of (Fulfilled at_gate_1))] in
  let s2 := next (next s0 (HITLSubmit approved (units "looks good")))
                 (HITLSettled (Fulfilled ack_building)) in
  run_status s2 = Some "running"
  ∧ view_agent s2 = Some ""
  ∧ view_phase s2 = Some (js_or (hd_current_phase ack_building) "hitl_gate_1")
  ∧ (hd_current_phase ack_building = Some "building" →
     view_phase s2 = Some "building")
  ∧ hitlJustApproved s2 = true.
Proof.
  intros s0 s2.
  apply (submit_shows_acknowledged_phase s0 approved (units "looks good")
           ack_building (next s0 (HITLSubmit approved (units "looks good"))) s2
           at_gate_1).
  - vm_compute. reflexivity.
  - reflexivity.
  - reflexivity.
  - vm_compute. reflexivity.
  - vm_compute. reflexivity.
  - discriminate.
Defined.

(** C7.  An acknowledgement with status [already_processed] only ends the
    loading state of the gate: the run view and the flag stay as they
    were and no error is recorded; right after the click that sent the
    decision the error is still cleared. *)
Theorem already_processed_is_silent s1 data s2 :
  hd_status data = "already_processed" →
  step s1 (HITLSettled (Fulfilled data)) = Some s2 →
  run s2 = run s1
  ∧ hitlJustApproved s2 = hitlJustApproved s1
  ∧ error s2 = error s1
  ∧ hitlLoading s2 = false
  ∧ ∀ s d fb, step s (HITLSubmit d fb) = Some s1 →
      run s2 = run s ∧ hitlJustApproved s2 = hitlJustApproved s
      ∧ error s2 = None.
Proof.
  intros Hst H2.
  apply step_hitl_settled_inv in H2 as (_ & _ & ->).
  destruct (effect_completed_frame s1
              (handleHITL_settled (Fulfilled data) s1))
    as (-> & _ & _ & _ & _ & _ & _ & -> & -> & -> & _).
  unfold handleHITL_settled. rewrite Hst. simpl.
  repeat split; auto;
    apply step_hitl_submit_inv in H as (_ & _ & ->); reflexivity.
Qed.

Lemma already_processed_is_silent_witness :
  let s0 := after [FetchAllSettled (poll_of (Fulfilled at_gate_1))] in
  let s1 := next s0 (HITLSubmit approved (units "again")) in
  let s2 := next s1 (HITLSettled (Fulfilled ack_already)) in
  run s2 = run s1
  ∧ hitlJustApproved s2 = hitlJustApproved s1
  ∧ error s2 = error s1
  ∧ hitlLoading s2 = false
  ∧ ∀ s d fb, step s (HITLSubmit d fb) = Some s1 →
      run s2 = run s ∧ hitlJustApproved s2 = hitlJustApproved s
      ∧ error s2 = None.
Proof.
  intros s0 s1 s2.
  apply (already_processed_is_silent s1 ack_already s2).
  - reflexivity.
  - vm_compute. reflexivity.
Defined.

(** ** Partial failure of a cycle *)

Lemma apply_rest_fields res s :
  bodies_present res →
  artifacts (apply_rest res s)
    = match artRes res with
      | Fulfilled data => data | Rejected _ => artifacts s end
  ∧ files (apply_rest res s)
    = match filesRes res with
      | Fulfilled (HasBody data) => or_empty data | _ => files s end
  ∧ decisions (apply_rest res s)
    = match decRes res with
      | Fulfilled (HasBody data) => or_empty data | _ => decisions s end
  ∧ deploy (apply_rest res s)
    = match depRes res with
      | Fulfilled data => data | Rejected _ => deploy s end
  ∧ activityLog (apply_rest res s)
    = match actRes res with
      | Fulfilled (HasBody data) => or_empty data | _ => activityLog s end.
Proof.
  unfold apply_rest, bodies_present. intros (Hf & Hd & Ha).
  destruct (artRes res), (filesRes res) as [[|?]|?],
    (decRes res) as [[|?]|?], (depRes res), (actRes res) as [[|?]|?];
    try contradiction; repeat split.
Qed.

Lemma apply_run_frame incoming s :
  artifacts (apply_run incoming s) = artifacts s
  ∧ files (apply_run incoming s) = files s
  ∧ decisions (apply_run incoming s) = decisions s
  ∧ deploy (apply_run incoming s) = deploy s
  ∧ activityLog (apply_run incoming s) = activityLog s
  ∧ interval_live (apply_run incoming s) = interval_live s.
Proof.
  unfold apply_run.
  destruct (hitlJustApproved s),
    (String.eqb (status incoming) "waiting_hitl"); repeat split.
Qed.

(** The claim of C4 as stated fails when the failure is a 404 of the run
    fetch: the five other fetches succeeded, none of their fields is
    updated, and the run field is cleared instead of kept. *)
Lemma not_found_is_all_or_nothing :
  ∃ s',
    step watching_gate_1 (FetchAllSettled poll_404) = Some s'
    ∧ artRes poll_404
      = Fulfilled (JObj [("requirements",
                          JArr [JStr "REQ-001"; JStr "REQ-002"])])
    ∧ artifacts s' = JObj [("requirements", JArr [JStr "REQ-001"])]
    ∧ artifacts s' = artifacts watching_gate_1
    ∧ filesRes poll_404
      = Fulfilled (HasBody (Some [JStr "app/main.py"; JStr "app/db.py"]))
    ∧ files s' = [JStr "app/main.py"]
    ∧ run watching_gate_1 = Some at_gate_1
    ∧ run s' = None.
Proof.
  eexists. split; [vm_compute; reflexivity|].
  vm_compute. repeat split.
Qed.

(** C4 (amended).  In a cycle whose run fetch does not fail with HTTP 404
    and in which every fulfilled response has a body, each of the six
    fields is decided by its own fetch alone: a rejected fetch leaves its
    field as it was, a fulfilled one replaces it (the run field by the
    result merged with the overlay). *)
Theorem partial_failure_is_per_field s res s' :
  run_not_found res = false →
  bodies_present res →
  step s (FetchAllSettled res) = Some s' →
  run s' = match runRes res with
           | Fulfilled incoming =>
               if hitlJustApproved s
                  && String.eqb (status incoming) "waiting_hitl"
               then mask_stale incoming (run s) else Some incoming
           | Rejected _ => run s
           end
  ∧ artifacts s' = match artRes res with
                   | Fulfilled data => data
                   | Rejected _ => artifacts s
                   end
  ∧ files s' = match filesRes res with
               | Fulfilled (HasBody data) => or_empty data
               | _ => files s
               end
  ∧ decisions s' = match decRes res with
                   | Fulfilled (HasBody data) => or_empty data
                   | _ => decisions s
                   end
  ∧ deploy s' = match depRes res with
                | Fulfilled data => data
                | Rejected _ => deploy s
                end
  ∧ activityLog s' = match actRes res with
                     | Fulfilled (HasBody data) => or_empty data
                     | _ => activityLog s
                     end.
Proof.
  intros Hnf Hbodies Hstep.
  apply step_fetch_inv in Hstep as (n & _ & _ & ->).
  destruct (effect_completed_frame s
              (fetchAll_settled res (set_inflight n s)))
    as (-> & -> & -> & -> & -> & -> & _).
  unfold fetchAll_settled, run_not_found in *.
  destruct (runRes res) as [incoming|reason]; [|rewrite Hnf]; simpl.
  - destruct (apply_rest_frame res (apply_run incoming (set_inflight n s)))
      as (-> & _).
    destruct (apply_rest_fields res (apply_run incoming (set_inflight n s))
                Hbodies)
      as (-> & -> & -> & -> & ->).
    destruct (apply_run_frame incoming (set_inflight n s))
      as (-> & -> & -> & -> & -> & _).
    split; [|repeat split].
    unfold apply_run. simpl.
    destruct (hitlJustApproved s),
      (String.eqb (status incoming) "waiting_hitl"); reflexivity.
  - destruct (apply_rest_frame res (set_inflight n s)) as (-> & _).
    destruct (apply_rest_fields res (set_inflight n s) Hbodies)
      as (-> & -> & -> & -> & ->).
    repeat split.
Qed.

Lemma partial_failure_is_per_field_witness :
  let s' := next watching_gate_1 (FetchAllSettled poll_without_artifacts) in
  run s' = Some back_to_building
  ∧ artifacts s' = artifacts watching_gate_1
  ∧ files s' = [JStr "app/main.py"; JStr "app/db.py"]
  ∧ decisions s' = [JStr "use sqlite"]
  ∧ deploy s' = {| dep_status := "running"; dep_urls := [] |}
  ∧ activityLog s' = [sample_entry "QA Agent" "tests written"].
Proof.
  intros s'.
  apply (partial_failure_is_per_field watching_gate_1
           poll_without_artifacts s').
  - reflexivity.
  - repeat split; discriminate.
  - vm_compute. reflexivity.
Defined.

(** What the restriction to responses with a body leaves out: all six
    fetches are fulfilled, the files response has no body, and the files,
    the decisions, the deploy status and the activity log keep their old
    values; the run and the artifacts, written before the statement that
    throws, are updated. *)
Example missing_body_skips_later_fields :
  ∃ s',
    step watching_gate_1 (FetchAllSettled poll_files_without_body) = Some s'
    ∧ run s' = Some back_to_building
    ∧ artifacts s' = JObj [("requirements",
                            JArr [JStr "REQ-001"; JStr "REQ-002"])]
    ∧ files s' = files watching_gate_1
    ∧ decisions s' = decisions watching_gate_1
    ∧ decisions s' ≠ [JStr "use sqlite"]
    ∧ deploy s' = deploy watching_gate_1
    ∧ activityLog s' = activityLog watching_gate_1
    ∧ loading s' = false.
Proof.
  eexists. split; [vm_compute; reflexivity|].
  vm_compute. repeat split. discriminate.
Qed.

(** ** The run is not found *)

(** C10.  A cycle whose run fetch fails with HTTP 404 leaves the
    artifacts, files, decisions, deploy status and activity log as they
    were, whatever their own fetches returned; the only cells it writes
    are the run, which it clears, and the loading indicator. *)
Theorem not_found_updates_no_field s res reason s' :
  runRes res = Rejected reason →
  response_status reason = Some 404%Z →
  step s (FetchAllSettled res) = Some s' →
  artifacts s' = artifacts s
  ∧ files s' = files s
  ∧ decisions s' = decisions s
  ∧ deploy s' = deploy s
  ∧ activityLog s' = activityLog s
  ∧ run s' = None.
Proof.
  intros Hrun Hcode Hstep.
  apply step_fetch_inv in Hstep as (n & _ & _ & ->).
  destruct (effect_completed_frame s
              (fetchAll_settled res (set_inflight n s)))
    as (-> & -> & -> & -> & -> & -> & _).
  unfold fetchAll_settled, is_404. rewrite Hrun, Hcode. simpl.
  repeat split.
Qed.

Lemma not_found_updates_no_field_witness :
  let s' := next watching_gate_1 (FetchAllSettled poll_404) in
  artifacts s' = artifacts watching_gate_1
  ∧ files s' = files watching_gate_1
  ∧ decisions s' = decisions watching_gate_1
  ∧ deploy s' = deploy watching_gate_1
  ∧ activityLog s' = activityLog watching_gate_1
  ∧ run s' = None.
Proof.
  intros s'.
  apply (not_found_updates_no_field watching_gate_1 poll_404
           (http_error 404) s').
  - reflexivity.
  - reflexivity.
  - vm_compute. reflexivity.
Defined.

(** The run view after the cycle that finds the run gone. *)
Lemma not_found_clears_run s res reason s' :
  runRes res = Rejected reason →
  response_status reason = Some 404%Z →
  step s (FetchAllSettled res) = Some s' →
  run s' = None.
Proof.
  intros Hrun Hcode Hstep.
  apply step_fetch_inv in Hstep as (n & _ & _ & ->).
  destruct (effect_completed_frame s
              (fetchAll_settled res (set_inflight n s))) as (-> & _).
  unfold fetchAll_settled, is_404. rewrite Hrun, Hcode. reflexivity.
Qed.

(** The claim of C9 as stated fails: the flag set by a decision is still
    set after the cycle that finds the run gone. *)
Lemma flag_survives_not_found :
  ∃ s',
    hitlJustApproved decided_at_gate_2 = true
    ∧ step decided_at_gate_2 (FetchAllSettled poll_404) = Some s'
    ∧ run s' = None
    ∧ hitlJustApproved s' = true.
Proof.
  eexists. split; [vm_compute; reflexivity|].
  split; [vm_compute; reflexivity|].
  vm_compute. split; reflexivity.
Qed.

(** C9 (amended).  The cycle that finds the run gone clears the run view,
    and with it the status and phase a prediction had put there; it does
    not touch the flag of the overlay, which keeps its value. *)
Theorem not_found_keeps_flag s res reason s' :
  runRes res = Rejected reason →
  response_status reason = Some 404%Z →
  step s (FetchAllSettled res) = Some s' →
  run s' = None ∧ hitlJustApproved s' = hitlJustApproved s.
Proof.
  intros Hrun Hcode Hstep.
  apply step_fetch_inv in Hstep as (n & _ & _ & ->).
  destruct (effect_completed_frame s
              (fetchAll_settled res (set_inflight n s)))
    as (-> & _ & _ & _ & _ & _ & _ & _ & _ & -> & _).
  unfold fetchAll_settled, is_404. rewrite Hrun, Hcode. simpl.
  split; reflexivity.
Qed.

Lemma not_found_keeps_flag_witness :
  let s' := next decided_at_gate_2 (FetchAllSettled poll_404) in
  run s' = None ∧ hitlJustApproved s' = hitlJustApproved decided_at_gate_2.
Proof.
  intros s'.
  apply (not_found_keeps_flag decided_at_gate_2 poll_404 (http_error 404) s').
  - reflexivity.
  - reflexivity.
  - vm_compute. reflexivity.
Defined.

(** The surviving flag is not inert: a cycle still in flight when the run
    was found gone, and which reports the run waiting at gate 2, is shown
    as running, so the gate is not offered. *)
Example late_result_after_not_found_is_masked :
  ∃ s',
    steps decided_at_gate_2
      [Tick; FetchAllSettled poll_404;
       FetchAllSettled (poll_of (Fulfilled at_gate_2))] = Some s'
    ∧ run_status s' = Some "running"
    ∧ view_phase s' = Some "hitl_gate_2"
    ∧ gate_enabled s' = false.
Proof.
  eexists. split; [vm_compute; reflexivity|].
  vm_compute. repeat split.
Qed.

(** ** The end of polling *)

Lemma fetchAll_settled_interval res s :
  interval_live s = false → interval_live (fetchAll_settled res s) = false.
Proof.
  intros H. unfold fetchAll_settled.
  destruct (runRes res) as [incoming|reason]; simpl.
  - destruct (apply_rest_frame res (apply_run incoming s))
      as (_ & _ & _ & _ & _ & -> & _).
    destruct (apply_run_frame incoming s) as (_ & _ & _ & _ & _ & ->).
    exact H.
  - destruct (is_404 reason); simpl; [reflexivity|].
    destruct (apply_rest_frame res s) as (_ & _ & _ & _ & _ & -> & _).
    exact H.
Qed.

Lemma handleHITL_settled_interval r s :
  interval_live (handleHITL_settled r s) = interval_live s.
Proof.
  unfold handleHITL_settled.
  destruct r as [data|e]; simpl; [|reflexivity].
  destruct (negb _); reflexivity.
Qed.

(** No continuation registers the interval again, and its callback does
    not run once it is cleared. *)
Lemma cont_interval_cleared s c s' :
  interval_live s = false →
  cont_step s c = Some s' →
  interval_live s' = false ∧ c ≠ CTick.
Proof.
  intros Hoff Hc. destruct c; simpl in Hc.
  - rewrite Hoff in Hc. discriminate.
  - destruct (inflight s) as [|n]; [discriminate|].
    injection Hc as <-. split; [|discriminate].
    apply fetchAll_settled_interval. exact Hoff.
  - destruct (hitlLoading s); [|discriminate].
    injection Hc as <-. split; [|discriminate].
    rewrite handleHITL_settled_interval. exact Hoff.
  - injection Hc as <-. split; [|discriminate]. destruct r; exact Hoff.
  - injection Hc as <-. split; [|discriminate]. destruct r; exact Hoff.
  - injection Hc as <-. split; [|discriminate]. destruct r; exact Hoff.
Qed.

Lemma run_conts_interval_cleared cs : ∀ s s',
  interval_live s = false →
  run_conts s cs = Some s' →
  interval_live s' = false ∧ CTick ∉ cs.
Proof.
  induction cs as [|c cs IH]; intros s s' Hoff Hrun; simpl in Hrun.
  - injection Hrun as <-. split; [exact Hoff|apply not_elem_of_nil].
  - destruct (cont_step s c) as [s1|] eqn:Hc; [|discriminate].
    destruct (cont_interval_cleared s c s1 Hoff Hc) as [Hoff1 Hne].
    destruct (IH s1 s' Hoff1 Hrun) as [Hoff' Hnotin].
    split; [exact Hoff'|].
    rewrite not_elem_of_cons. split; [congruence|exact Hnotin].
Qed.

(** No event of a mounted page registers the interval again, and the
    interval cannot fire once it is cleared. *)
Lemma step_interval_cleared s e s' :
  interval_live s = false →
  step s e = Some s' →
  interval_live s' = false ∧ (e ≠ Tick) ∧ (CTick ∉ continuations e).
Proof.
  intros Hoff Hstep.
  apply step_cases in Hstep
    as [(s1 & Hrun & ->)|[[-> ->]|[(d & fb & -> & ->)|[[-> ->]|[-> ->]]]]].
  - destruct (run_conts_interval_cleared _ _ _ Hoff Hrun) as [Hoff1 Hnotin].
    split; [apply effect_completed_interval, Hoff1|].
    split; [|exact Hnotin].
    intros ->. apply Hnotin. apply list_elem_of_here.
  - split; [exact Hoff|]. split; [discriminate|apply not_elem_of_nil].
  - split; [exact Hoff|]. split; [discriminate|apply not_elem_of_nil].
  - split; [exact Hoff|]. split; [discriminate|apply not_elem_of_nil].
  - split; [reflexivity|]. split; [discriminate|apply not_elem_of_nil].
Qed.

Lemma steps_interval_cleared evs : ∀ s s',
  interval_live s = false →
  steps s evs = Some s' →
  interval_live s' = false ∧ (Tick ∉ evs)
  ∧ (CTick ∉ trace_continuations evs).
Proof.
  induction evs as [|e evs IH]; intros s s' Hoff Hsteps; simpl in Hsteps.
  - injection Hsteps as <-. split; [exact Hoff|].
    split; apply not_elem_of_nil.
  - destruct (step s e) as [s1|] eqn:Hstep; [|discriminate].
    destruct (step_interval_cleared s e s1 Hoff Hstep) as (Hoff1 & Hne & Hc).
    destruct (IH s1 s' Hoff1 Hsteps) as (Hoff' & Hnotin & Hcs).
    split; [exact Hoff'|]. split.
    + rewrite not_elem_of_cons. split; [congruence|exact Hnotin].
    + rewrite trace_continuations_cons, not_elem_of_app.
      split; assumption.
Qed.

(** C5.  The cycle that finds the run gone (HTTP 404 on the run fetch)
    clears the run and the interval; from then on, whatever happens to the
    mounted page, the interval stays cleared and never fires, neither
    after a render nor between two renders: only a new mount polls
    again. *)
Theorem not_found_stops_polling s res reason s' :
  runRes res = Rejected reason →
  response_status reason = Some 404%Z →
  step s (FetchAllSettled res) = Some s' →
  run s' = None
  ∧ interval_live s' = false
  ∧ step s' Tick = None
  ∧ ∀ evs s'', steps s' evs = Some s'' →
      interval_live s'' = false ∧ (Tick ∉ evs)
      ∧ (CTick ∉ trace_continuations evs).
Proof.
  intros Hrun Hcode Hstep.
  assert (Hoff : interval_live s' = false).
  { apply step_fetch_inv in Hstep as (n & _ & _ & ->).
    apply effect_completed_interval.
    unfold fetchAll_settled, is_404. rewrite Hrun, Hcode. reflexivity. }
  split; [eapply not_found_clears_run; eauto|].
  split; [exact Hoff|].
  split.
  - unfold step. destruct (mounted s'); simpl; [|reflexivity].
    rewrite Hoff. reflexivity.
  - intros evs s''. apply steps_interval_cleared. exact Hoff.
Qed.

Lemma not_found_stops_polling_witness :
  let s' := next watching_gate_1 (FetchAllSettled poll_404) in
  run s' = None
  ∧ interval_live s' = false
  ∧ step s' Tick = None
  ∧ ∀ evs s'', steps s' evs = Some s'' →
      interval_live s'' = false ∧ (Tick ∉ evs)
      ∧ (CTick ∉ trace_continuations evs).
Proof.
  intros s'.
  apply (not_found_stops_polling watching_gate_1 poll_404 (http_error 404) s').
  - reflexivity.
  - reflexivity.
  - vm_compute. reflexivity.
Defined.

(** ** Completion *)

Lemma effect_completed_idle old new :
  (interval_live old = false → interval_live new = false) →
  completed_is_idle old →
  completed_is_idle (effect_completed old new).
Proof.
  intros Hmono Hold. unfold effect_completed, completed_is_idle in *.
  case_decide as Hsame.
  - intros Hc. rewrite <- Hsame in Hc. auto.
  - case_decide as Hdone; [reflexivity|].
    intros Hc. contradiction.
Qed.

Lemma step_completed_is_idle s e s' :
  completed_is_idle s → step s e = Some s' → completed_is_idle s'.
Proof.
  intros Hinv Hstep.
  apply step_cases in Hstep
    as [(s1 & Hrun & ->)|[[-> ->]|[(d & fb & -> & ->)|[[-> ->]|[-> ->]]]]].
  - apply effect_completed_idle; [|exact Hinv].
    intros Hoff. eapply run_conts_interval_cleared; eauto.
  - exact Hinv.
  - exact Hinv.
  - exact Hinv.
  - intros _. reflexivity.
Qed.

Lemma steps_completed_is_idle evs : ∀ s s',
  completed_is_idle s → steps s evs = Some s' → completed_is_idle s'.
Proof.
  induction evs as [|e evs IH]; intros s s' Hinv Hsteps; simpl in Hsteps.
  - injection Hsteps as <-. exact Hinv.
  - destruct (step s e) as [s1|] eqn:Hstep; [|discriminate].
    eapply IH; [|exact Hsteps].
    eapply step_completed_is_idle; eauto.
Qed.

(** On a mounted page that has rendered, the interval is live only while
    the view does not show [completed]. *)
Lemma reachable_completed_is_idle s :
  reachable s → completed_is_idle s.
Proof.
  intros [evs Hsteps].
  eapply steps_completed_is_idle; [|exact Hsteps].
  intros Hc. discriminate Hc.
Qed.

(** The gate cannot be used while the view does not show [waiting_hitl]. *)
Lemma submit_needs_waiting s d fb :
  run_status s ≠ Some "waiting_hitl" → step s (HITLSubmit d fb) = None.
Proof.
  intros Hne. unfold step. destruct (mounted s); simpl; [|reflexivity].
  unfold gate_enabled, isAtHITL.
  rewrite bool_decide_eq_false_2 by exact Hne.
  rewrite andb_false_r. reflexivity.
Qed.









(** The overlay is pending when the completed result of the witness
    arrives. *)
Example overlay_pending_before_completion :
  hitlJustApproved decided_at_gate_2 = true
  ∧ run_status decided_at_gate_2 = Some "running".
Proof. vm_compute. split; reflexivity. Qed.

(** ** The phase timeline *)

(** The index of a phase of the table is its position in the table. *)
Lemma phaseIndex_position i ph :
  PHASES !! i = Some ph → phaseIndex (key ph) = Z.of_nat i.
Proof.
  intros H.
  do 7 (destruct i as [|i];
        [injection H as <-; vm_compute; reflexivity|]).
  discriminate H.
Qed.

Lemma PipelineTracker_lookup r log i row :
  PipelineTracker r log !! i = Some row →
  ∃ ph, PHASES !! i = Some ph
        ∧ row = phase_row (phaseIndex (current_phase r))
                  (latestByAgent log) i ph.
Proof.
  unfold PipelineTracker. rewrite list_lookup_imap.
  destruct (PHASES !! i) as [ph|]; simpl; [|discriminate].
  intros [= <-]. eauto.
Qed.

Lemma row_class_classify cur latest i ph :
  row_class (phase_row cur latest i ph) = classify (Z.of_nat i) cur.
Proof. reflexivity. Qed.

(** C8.  The timeline depends on the run through [current_phase] only and
    is otherwise a function of the activity log; its rows are the seven
    phases in the order of the table whatever the log contains, in
    whatever order; and a row is done, current or pending as the index of
    its phase is less than, equal to or greater than the index of the
    current phase. *)
Theorem timeline_canonical_and_classified r r' log log' :
  current_phase r = current_phase r' →
  PipelineTracker r log = PipelineTracker r' log
  ∧ key ∘ phase <$> PipelineTracker r log = phase_keys
  ∧ classified (PipelineTracker r log) = classified (PipelineTracker r' log')
  ∧ ∀ i row, PipelineTracker r log !! i = Some row →
      let idx := phaseIndex (key (phase row)) in
      let current := phaseIndex (current_phase r) in
      idx = Z.of_nat i
      ∧ isDone row = Z.ltb idx current
      ∧ isCurrent row = Z.eqb idx current
      ∧ isPending row = Z.gtb idx current
      ∧ row_class row = classify idx current.
Proof.
  intros Hph.
  split; [unfold PipelineTracker; rewrite Hph; reflexivity|].
  split; [reflexivity|].
  split; [unfold PipelineTracker; rewrite Hph; reflexivity|].
  intros i row Hrow idx current.
  apply PipelineTracker_lookup in Hrow as (ph & Hi & ->).
  subst idx current. simpl phase.
  rewrite (phaseIndex_position i ph Hi).
  repeat split.
Qed.

Lemma timeline_canonical_and_classified_witness :
  let r := sample_run "running" "building" "QA Agent" in
  let r' := sample_run "waiting_hitl" "building" "" in
  PipelineTracker r sample_log = PipelineTracker r' sample_log
  ∧ key ∘ phase <$> PipelineTracker r sample_log = phase_keys
  ∧ classified (PipelineTracker r sample_log)
    = classified (PipelineTracker r' (reverse sample_log))
  ∧ ∀ i row, PipelineTracker r sample_log !! i = Some row →
      let idx := phaseIndex (key (phase row)) in
      let current := phaseIndex (current_phase r) in
      idx = Z.of_nat i
      ∧ isDone row = Z.ltb idx current
      ∧ isCurrent row = Z.eqb idx current
      ∧ isPending row = Z.gtb idx current
      ∧ row_class row = classify idx current.
Proof.
  intros r r'.
  apply (timeline_canonical_and_classified r r' sample_log
           (reverse sample_log)).
  reflexivity.
Defined.

(** The timeline of a run in [building]: two phases done, one current,
    four pending; an unknown phase counts as the first one. *)
Example timeline_while_building :
  classified (PipelineTracker (sample_run "running" "building" "") sample_log)
  = [("planning", ClsDone); ("hitl_gate_1", ClsDone);
     ("building", ClsCurrent); ("integration", ClsPending);
     ("hitl_gate_2", ClsPending); ("devops", ClsPending);
     ("done", ClsPending)]
  ∧ phaseIndex "no_such_phase" = 0%Z.
Proof. vm_compute. split; reflexivity. Qed.

(** The agents shown with a phase: the latest entry of each agent of that
    phase, in the order in which the agents first appear in the log. *)
Example agents_of_the_building_phase :
  (phaseAgents <$> PipelineTracker (sample_run "running" "building" "")
                     sample_log) !! 2%nat
  = Some [("Backend Builder", sample_entry "Backend Builder" "writing the API");
          ("QA Agent", sample_entry "QA Agent" "writing tests")]
  ∧ (phaseAgents <$> PipelineTracker (sample_run "running" "building" "")
                       sample_log) !! 0%nat
    = Some [("BA Agent", sample_entry "BA Agent" "requirements ready")].
Proof. vm_compute. split; reflexivity. Qed.

(** * Further properties of the page *)

(** ** The flag and the gate *)

Lemma cont_overlay_masks s c s' :
  overlay_masks s → cont_step s c = Some s' → overlay_masks s'.
Proof.
  intros Hinv Hc. destruct c; simpl in Hc.
  - destruct (interval_live s); [|discriminate].
    injection Hc as <-. exact Hinv.
  - destruct (inflight s) as [|n]; [discriminate|].
    injection Hc as <-. unfold overlay_masks in *.
    unfold fetchAll_settled.
    destruct (runRes res) as [incoming|reason]; simpl.
    + destruct (apply_rest_frame res
                  (apply_run incoming (set_inflight n s)))
        as (-> & _ & _ & _ & -> & _).
      unfold apply_run. simpl.
      destruct (hitlJustApproved s) eqn:Hf; simpl.
      * destruct (String.eqb (status incoming) "waiting_hitl"); simpl;
          [intros _; split; reflexivity|discriminate].
      * rewrite Hf. discriminate.
    + destruct (is_404 reason); simpl; [intros _; exact I|].
      destruct (apply_rest_frame res (set_inflight n s))
        as (-> & _ & _ & _ & -> & _).
      exact Hinv.
  - destruct (hitlLoading s); [|discriminate].
    injection Hc as <-. unfold overlay_masks in *.
    unfold handleHITL_settled.
    destruct r as [data|e]; simpl; [|exact Hinv].
    destruct (negb (String.eqb (hd_status data) "already_processed"));
      simpl; [|exact Hinv].
    intros _. destruct (run s); simpl; [split; reflexivity|exact I].
  - injection Hc as <-. destruct r; exact Hinv.
  - injection Hc as <-. destruct r; exact Hinv.
  - injection Hc as <-. destruct r; exact Hinv.
Qed.

Lemma step_overlay_masks s e s' :
  overlay_masks s → step s e = Some s' → overlay_masks s'.
Proof.
  intros Hinv Hstep.
  apply step_cases in Hstep
    as [(s1 & Hrun & ->)|[[-> ->]|[(d & fb & -> & ->)|[[-> ->]|[-> ->]]]]];
    try exact Hinv.
  assert (H1 : overlay_masks s1).
  { apply (run_conts_keep overlay_masks (λ _, True)
             (λ s c s' _, cont_overlay_masks s c s')
             (continuations e) s s1); [|exact Hinv|exact Hrun].
    apply Forall_forall. auto. }
  unfold overlay_masks in *.
  destruct (effect_completed_frame s s1)
    as (-> & _ & _ & _ & _ & _ & _ & _ & _ & -> & _).
  exact H1.
Qed.

Lemma steps_overlay_masks evs : ∀ s s',
  overlay_masks s → steps s evs = Some s' → overlay_masks s'.
Proof.
  induction evs as [|e evs IH]; intros s s' Hinv Hsteps; simpl in Hsteps.
  - injection Hsteps as <-. exact Hinv.
  - destruct (step s e) as [s1|] eqn:Hstep; [|discriminate].
    eapply IH; [|exact Hsteps].
    eapply step_overlay_masks; eauto.
Qed.

(** X1.  On a mounted page, while the flag of the overlay is set the run
    view is either absent or shows status [running] with no agent, so the
    gate is not offered and no decision can be submitted. *)
Theorem flag_hides_gate s :
  reachable s →
  hitlJustApproved s = true →
  (run s = None ∨ (run_status s = Some "running" ∧ view_agent s = Some ""))
  ∧ ∀ d fb, step s (HITLSubmit d fb) = None.
Proof.
  intros [evs Hsteps] Hflag.
  assert (Hinv : overlay_masks s).
  { eapply steps_overlay_masks; [|exact Hsteps]. intros Hf. discriminate Hf. }
  specialize (Hinv Hflag).
  unfold run_status, view_agent.
  destruct (run s) as [r|] eqn:Hr; simpl.
  - destruct Hinv as [Hst Hag]. split.
    + right. rewrite Hst, Hag. split; reflexivity.
    + intros d fb. apply submit_needs_waiting.
      unfold run_status. rewrite Hr. simpl. rewrite Hst. discriminate.
  - split; [left; reflexivity|].
    intros d fb. apply submit_needs_waiting.
    unfold run_status. rewrite Hr. discriminate.
Qed.

Lemma flag_hides_gate_witness :
  (run approved_at_gate_1 = None
   ∨ (run_status approved_at_gate_1 = Some "running"
      ∧ view_agent approved_at_gate_1 = Some ""))
  ∧ ∀ d fb, step approved_at_gate_1 (HITLSubmit d fb) = None.
Proof.
  apply (flag_hides_gate approved_at_gate_1).
  - exists until_approved_at_gate_1. vm_compute. reflexivity.
  - vm_compute. reflexivity.
Defined.

(** ** Failures that do not end the polling *)

(** The interval after a continuation: cleared by the continuation of a
    cycle that found the run gone, and otherwise as it was. *)
Lemma cont_interval s c s' :
  cont_step s c = Some s' →
  interval_live s' = interval_live s && negb (cont_not_found c).
Proof.
  intros Hc. destruct c; simpl in Hc |- *.
  - destruct (interval_live s) eqn:Hl; [|discriminate].
    injection Hc as <-. simpl. exact Hl.
  - destruct (inflight s) as [|n]; [discriminate|].
    injection Hc as <-. unfold fetchAll_settled, run_not_found.
    destruct (runRes res) as [incoming|reason]; simpl.
    + destruct (apply_rest_frame res (apply_run incoming (set_inflight n s)))
        as (_ & _ & _ & _ & _ & -> & _).
      destruct (apply_run_frame incoming (set_inflight n s))
        as (_ & _ & _ & _ & _ & ->).
      simpl. rewrite andb_true_r. reflexivity.
    + destruct (is_404 reason); simpl.
      * rewrite andb_false_r. reflexivity.
      * destruct (apply_rest_frame res (set_inflight n s))
          as (_ & _ & _ & _ & _ & -> & _).
        simpl. rewrite andb_true_r. reflexivity.
  - destruct (hitlLoading s); [|discriminate].
    injection Hc as <-. rewrite handleHITL_settled_interval, andb_true_r.
    reflexivity.
  - injection Hc as <-. rewrite andb_true_r. destruct r; reflexivity.
  - injection Hc as <-. rewrite andb_true_r. destruct r; reflexivity.
  - injection Hc as <-. rewrite andb_true_r. destruct r; reflexivity.
Qed.

Lemma run_conts_interval cs : ∀ s s',
  run_conts s cs = Some s' →
  interval_live s' = interval_live s && negb (existsb cont_not_found cs).
Proof.
  induction cs as [|c cs IH]; intros s s' Hrun; simpl in Hrun.
  - injection Hrun as <-. simpl. rewrite andb_true_r. reflexivity.
  - destruct (cont_step s c) as [s1|] eqn:Hc; [|discriminate].
    rewrite (IH s1 s' Hrun), (cont_interval s c s1 Hc). simpl.
    rewrite negb_orb, andb_assoc. reflexivity.
Qed.

Lemma fetchAll_settled_interval_kept res s :
  run_not_found res = false →
  interval_live (fetchAll_settled res s) = interval_live s.
Proof.
  unfold run_not_found, fetchAll_settled. intros Hnf.
  destruct (runRes res) as [incoming|reason]; simpl.
  - destruct (apply_rest_frame res (apply_run incoming s))
      as (_ & _ & _ & _ & _ & -> & _).
    destruct (apply_run_frame incoming s) as (_ & _ & _ & _ & _ & ->).
    reflexivity.
  - rewrite Hnf. simpl.
    destruct (apply_rest_frame res s) as (_ & _ & _ & _ & _ & -> & _).
    reflexivity.
Qed.

(** X2.  A run fetch that fails with anything but HTTP 404 (another
    status, or no response at all) leaves the run view, the flag of the
    overlay and the interval as they were; the cycle still ends the
    loading state. *)
Theorem transient_run_failure_is_absorbed s res reason s' :
  runRes res = Rejected reason →
  response_status reason ≠ Some 404%Z →
  step s (FetchAllSettled res) = Some s' →
  run s' = run s
  ∧ hitlJustApproved s' = hitlJustApproved s
  ∧ interval_live s' = interval_live s
  ∧ loading s' = false.
Proof.
  intros Hrun Hcode Hstep.
  apply step_fetch_inv in Hstep as (n & _ & _ & ->).
  assert (H404 : is_404 reason = false).
  { unfold is_404. destruct (response_status reason) as [code|]; [|reflexivity].
    apply Z.eqb_neq. intros ->. apply Hcode. reflexivity. }
  assert (Hnew : run (fetchAll_settled res (set_inflight n s)) = run s
                 ∧ hitlJustApproved (fetchAll_settled res (set_inflight n s))
                   = hitlJustApproved s
                 ∧ interval_live (fetchAll_settled res (set_inflight n s))
                   = interval_live s
                 ∧ loading (fetchAll_settled res (set_inflight n s)) = false).
  { unfold fetchAll_settled. rewrite Hrun, H404. simpl.
    destruct (apply_rest_frame res (set_inflight n s))
      as (-> & _ & _ & _ & -> & -> & _).
    repeat split. }
  destruct Hnew as (Hr & Hf & Hi & Hl).
  assert (Hsame : run_status s
                  = run_status (fetchAll_settled res (set_inflight n s))).
  { unfold run_status. rewrite Hr. reflexivity. }
  unfold effect_completed.
  destruct (decide (run_status s
                    = run_status (fetchAll_settled res (set_inflight n s))));
    [auto|contradiction].
Qed.

Lemma transient_run_failure_is_absorbed_witness :
  let s' := next approved_at_gate_1
              (FetchAllSettled (poll_of (Rejected network_error))) in
  run s' = run approved_at_gate_1
  ∧ hitlJustApproved s' = hitlJustApproved approved_at_gate_1
  ∧ interval_live s' = interval_live approved_at_gate_1
  ∧ loading s' = false.
Proof.
  intros s'.
  apply (transient_run_failure_is_absorbed approved_at_gate_1
           (poll_of (Rejected network_error)) network_error s').
  - reflexivity.
  - discriminate.
  - vm_compute. reflexivity.
Defined.

(** X3.  On a mounted page whose interval is live, an event clears the
    interval in exactly three cases: the page is unmounted, one of the
    continuations it runs is that of a cycle whose run fetch failed with
    HTTP 404, or the status of the run that is rendered after it is
    [completed].  A cycle that is rendered before anything else happens
    therefore stops the polling exactly when its run fetch failed with
    404 or reports [completed], and a status [error] keeps the page
    polling; a [completed] result that an acknowledgement overwrites
    before the page renders does not stop it. *)
Theorem cycle_stops_polling_iff s e s' :
  reachable s →
  interval_live s = true →
  step s e = Some s' →
  (interval_live s' = false ↔
     (e = Unmount
      ∨ (∃ res, CFetchAll res ∈ continuations e ∧ run_not_found res = true)
      ∨ run_status s' = Some "completed"))
  ∧ ∀ res, e = FetchAllSettled res →
      (interval_live s' = false ↔
         (run_not_found res = true
          ∨ ∃ incoming, runRes res = Fulfilled incoming
                        ∧ status incoming = "completed")).
Proof.
  intros Hreach Hlive Hstep.
  assert (Hnc : run_status s ≠ Some "completed").
  { intros Hc. apply reachable_completed_is_idle in Hreach.
    rewrite (Hreach Hc) in Hlive. discriminate. }
  assert (Hgen : interval_live s' = false ↔
     (e = Unmount
      ∨ (∃ res, CFetchAll res ∈ continuations e ∧ run_not_found res = true)
      ∨ run_status s' = Some "completed")); [|split; [exact Hgen|]].
  - assert (Hun : e = Unmount → interval_live s' = false).
    { intros ->. unfold step in Hstep.
      destruct (negb (mounted s)); [discriminate|].
      injection Hstep as <-. reflexivity. }
    apply step_cases in Hstep
      as [(s1 & Hrun & ->)|[[-> ->]|[(d & fb & -> & ->)|[[-> ->]|[-> ->]]]]].
    + pose proof (run_conts_interval _ _ _ Hrun) as Hi.
      rewrite Hlive in Hi. simpl in Hi.
      assert (H404 : interval_live s1 = false
                     ↔ ∃ res, CFetchAll res ∈ continuations e
                              ∧ run_not_found res = true).
      { rewrite Hi, negb_false_iff, existsb_exists. split.
        - intros (c & Hin & Hc). destruct c; try discriminate Hc.
          exists res. split; [apply list_elem_of_In, Hin|exact Hc].
        - intros (res & Hin & Hc). exists (CFetchAll res).
          split; [apply list_elem_of_In, Hin|exact Hc]. }
      assert (Hrs : run_status (effect_completed s s1) = run_status s1).
      { unfold run_status.
        destruct (effect_completed_frame s s1) as (-> & _). reflexivity. }
      rewrite Hrs.
      rewrite (effect_completed_interval_iff s s1 Hnc) in Hun |- *.
      rewrite H404 in Hun |- *.
      split; [intros [H|H]; auto|].
      intros [He|[H|H]]; auto.
    + simpl. rewrite Hlive. split; [discriminate|].
      intros [He|[(res & Hin & _)|Hc]];
        [discriminate He|apply elem_of_nil in Hin; contradiction
        |contradiction].
    + simpl. rewrite Hlive. split; [discriminate|].
      intros [He|[(res & Hin & _)|Hc]];
        [discriminate He|apply elem_of_nil in Hin; contradiction
        |contradiction].
    + simpl. rewrite Hlive. split; [discriminate|].
      intros [He|[(res & Hin & _)|Hc]];
        [discriminate He|apply elem_of_nil in Hin; contradiction
        |contradiction].
    + simpl. split; [auto|reflexivity].
  - intros res ->. rewrite Hgen. simpl.
    destruct (run_not_found res) eqn:Hnf.
    { split; [auto|]. intros _. right. left. exists res.
      split; [apply list_elem_of_here|exact Hnf]. }
    transitivity (run_status s' = Some "completed").
    { split; [|auto].
      intros [He|[(res' & Hin & H404)|Hc]]; [discriminate He| |exact Hc].
      apply list_elem_of_singleton in Hin. injection Hin as ->.
      congruence. }
    transitivity (∃ incoming, runRes res = Fulfilled incoming
                              ∧ status incoming = "completed");
      [|split; [auto|intros [H|H]; [discriminate H|exact H]]].
    apply step_fetch_inv in Hstep as (n & _ & _ & ->).
    unfold run_status at 1.
    destruct (effect_completed_frame s
                (fetchAll_settled res (set_inflight n s))) as (-> & _).
    unfold run_not_found in Hnf. unfold fetchAll_settled.
    destruct (runRes res) as [incoming|reason]; simpl.
    + destruct (apply_rest_frame res
                  (apply_run incoming (set_inflight n s))) as (-> & _).
      unfold apply_run. simpl.
      destruct (hitlJustApproved s),
        (String.eqb (status incoming) "waiting_hitl") eqn:Hw; simpl.
      * apply String.eqb_eq in Hw. split; [discriminate|].
        intros (i & [= <-] & Hi). rewrite Hi in Hw. discriminate.
      * split; [intros [= Hi]; eauto|intros (i & [= <-] & ->); reflexivity].
      * split; [intros [= Hi]; eauto|intros (i & [= <-] & ->); reflexivity].
      * split; [intros [= Hi]; eauto|intros (i & [= <-] & ->); reflexivity].
    + rewrite Hnf. simpl.
      destruct (apply_rest_frame res (set_inflight n s)) as (-> & _).
      split; [intros Hc; exfalso; apply Hnc; exact Hc|].
      intros (i & Hi & _). discriminate Hi.
Qed.

Lemma cycle_stops_polling_iff_witness :
  let s := after until_sent_at_gate_2 in
  let e := FetchAllSettled (poll_of (Fulfilled completed_run)) in
  let s' := next s e in
  (interval_live s' = false ↔
     (e = Unmount
      ∨ (∃ res, CFetchAll res ∈ continuations e ∧ run_not_found res = true)
      ∨ run_status s' = Some "completed"))
  ∧ ∀ res, e = FetchAllSettled res →
      (interval_live s' = false ↔
         (run_not_found res = true
          ∨ ∃ incoming, runRes res = Fulfilled incoming
                        ∧ status incoming = "completed")).
Proof.
  intros s e s'.
  apply (cycle_stops_polling_iff s e s').
  - exists until_sent_at_gate_2. vm_compute. reflexivity.
  - vm_compute. reflexivity.
  - vm_compute. reflexivity.
Defined.

(** A run in status [error] keeps the interval live; so does a
    [completed] result that the acknowledgement of a decision overwrites
    before the page renders, while the same result rendered on its own
    clears it. *)
Example error_status_keeps_polling :
  interval_live
    (next watching_gate_1
       (FetchAllSettled
          (poll_of (Fulfilled (sample_run "error" "building" "")))))
  = true
  ∧ interval_live (next (after until_sent_at_gate_2) completed_with_ack)
    = true
  ∧ interval_live
      (next (after until_sent_at_gate_2)
         (FetchAllSettled (poll_of (Fulfilled completed_run))))
    = false.
Proof. vm_compute. repeat split. Qed.

(** ** The loading state *)

Lemma cont_loading s c s' :
  cont_step s c = Some s' →
  loading s' = if is_cfetch c then false else loading s.
Proof.
  intros Hc. destruct c; simpl in Hc |- *.
  - destruct (interval_live s); [|discriminate].
    injection Hc as <-. reflexivity.
  - destruct (inflight s) as [|n]; [discriminate|].
    injection Hc as <-. unfold fetchAll_settled.
    destruct (runRes res) as [incoming|reason]; simpl; [reflexivity|].
    destruct (is_404 reason); reflexivity.
  - destruct (hitlLoading s); [|discriminate].
    injection Hc as <-. unfold handleHITL_settled.
    destruct r as [data|e]; simpl; [|reflexivity].
    destruct (negb _); reflexivity.
  - injection Hc as <-. destruct r; reflexivity.
  - injection Hc as <-. destruct r; reflexivity.
  - injection Hc as <-. destruct r; reflexivity.
Qed.

Lemma run_conts_loading cs : ∀ s s',
  run_conts s cs = Some s' →
  loading s' = false ↔ (loading s = false ∨ ∃ res, CFetchAll res ∈ cs).
Proof.
  induction cs as [|c cs IH]; intros s s' Hrun; simpl in Hrun.
  - injection Hrun as <-. split; [auto|].
    intros [H|[res H]]; [exact H|]. apply elem_of_nil in H. contradiction.
  - destruct (cont_step s c) as [s1|] eqn:Hc; [|discriminate].
    rewrite (IH s1 s' Hrun), (cont_loading s c s1 Hc).
    split.
    + intros [H|[res H]].
      * destruct c; simpl in H; auto.
        right. eexists. apply list_elem_of_here.
      * right. exists res. apply list_elem_of_further, H.
    + intros [H|[res H]].
      * left. destruct c; simpl; auto.
      * apply elem_of_cons in H as [<-|H]; [left; reflexivity|].
        right. eauto.
Qed.

Lemma step_loading s e s' :
  step s e = Some s' →
  loading s' = false ↔
    (loading s = false ∨ ∃ res, CFetchAll res ∈ continuations e).
Proof.
  intros Hstep.
  apply step_cases in Hstep
    as [(s1 & Hrun & ->)|[[-> ->]|[(d & fb & -> & ->)|[[-> ->]|[-> ->]]]]].
  - destruct (effect_completed_frame s s1)
      as (_ & _ & _ & _ & _ & _ & -> & _).
    apply run_conts_loading, Hrun.
  - simpl. split; [auto|]. intros [H|[res H]]; [exact H|].
    apply elem_of_nil in H. contradiction.
  - simpl. split; [auto|]. intros [H|[res H]]; [exact H|].
    apply elem_of_nil in H. contradiction.
  - simpl. split; [auto|]. intros [H|[res H]]; [exact H|].
    apply elem_of_nil in H. contradiction.
  - simpl. split; [auto|]. intros [H|[res H]]; [exact H|].
    apply elem_of_nil in H. contradiction.
Qed.

Lemma steps_loading evs : ∀ s s',
  steps s evs = Some s' →
  loading s' = false ↔
    (loading s = false ∨ ∃ res, CFetchAll res ∈ trace_continuations evs).
Proof.
  induction evs as [|e evs IH]; intros s s' Hsteps; simpl in Hsteps.
  - injection Hsteps as <-. split; [auto|].
    intros [H|[res H]]; [exact H|]. apply elem_of_nil in H. contradiction.
  - destruct (step s e) as [s1|] eqn:Hstep; [|discriminate].
    rewrite (IH s1 s' Hsteps), (step_loading s e s1 Hstep).
    split.
    + intros [[H|[res H]]|[res H]]; [auto| |].
      * right. exists res. rewrite trace_continuations_cons.
        apply elem_of_app. auto.
      * right. exists res. rewrite trace_continuations_cons.
        apply elem_of_app. auto.
    + intros [H|[res H]]; [auto|].
      rewrite trace_continuations_cons in H.
      apply elem_of_app in H as [H|H]; eauto.
Qed.

Lemma unbatched_fetch_settled e res :
  is_batched e = false →
  CFetchAll res ∈ continuations e ↔ e = FetchAllSettled res.
Proof.
  intros Hb. destruct e; simpl in Hb |- *; try discriminate Hb;
    rewrite ?list_elem_of_singleton, ?elem_of_nil;
    split; intros H; try discriminate H; try contradiction;
    congruence.
Qed.

Lemma unbatched_trace_fetch evs res :
  Forall (λ e, is_batched e = false) evs →
  CFetchAll res ∈ trace_continuations evs ↔ FetchAllSettled res ∈ evs.
Proof.
  induction evs as [|e evs IH]; intros Hall.
  - simpl. rewrite !elem_of_nil. reflexivity.
  - apply Forall_cons in Hall as [He Hall].
    rewrite trace_continuations_cons, elem_of_app, elem_of_cons,
      (IH Hall), (unbatched_fetch_settled e res He).
    split; intros [H|H]; auto.
Qed.

(** X4.  The page leaves its loading state exactly when the first cycle
    settles, alone or together with other responses, whatever the six
    fetches returned, and never enters it again. *)
Theorem loading_ends_with_first_cycle evs s :
  steps mount evs = Some s →
  (loading s = false ↔ ∃ res, CFetchAll res ∈ trace_continuations evs)
  ∧ (Forall (λ e, is_batched e = false) evs →
     (loading s = false ↔ ∃ res, FetchAllSettled res ∈ evs)).
Proof.
  intros Hsteps.
  assert (Hiff : loading s = false
                 ↔ ∃ res, CFetchAll res ∈ trace_continuations evs).
  { rewrite (steps_loading evs mount s Hsteps).
    split; [|auto]. intros [H|H]; [discriminate H|exact H]. }
  split; [exact Hiff|].
  intros Hall. rewrite Hiff.
  split; intros [res H]; exists res;
    apply (unbatched_trace_fetch evs res Hall); exact H.
Qed.

Lemma loading_ends_with_first_cycle_witness :
  let evs := [Tick; FetchAllSettled (poll_of (Rejected network_error))] in
  (loading (after evs) = false
   ↔ ∃ res, CFetchAll res ∈ trace_continuations evs)
  ∧ (Forall (λ e, is_batched e = false) evs →
     (loading (after evs) = false ↔ ∃ res, FetchAllSettled res ∈ evs)).
Proof.
  intros evs.
  apply (loading_ends_with_first_cycle evs).
  vm_compute. reflexivity.
Defined.

(** ** A decision in flight *)

Lemma fetchAll_settled_hitlLoading res s :
  hitlLoading (fetchAll_settled res s) = hitlLoading s.
Proof.
  unfold fetchAll_settled.
  destruct (runRes res) as [incoming|reason]; simpl.
  - destruct (apply_rest_frame res (apply_run incoming s))
      as (_ & _ & _ & -> & _).
    unfold apply_run.
    destruct (hitlJustApproved s),
      (String.eqb (status incoming) "waiting_hitl"); reflexivity.
  - destruct (is_404 reason); simpl; [reflexivity|].
    destruct (apply_rest_frame res s) as (_ & _ & _ & -> & _).
    reflexivity.
Qed.

Lemma cont_hitlLoading s c s' :
  is_chitl c = false →
  hitlLoading s = true →
  cont_step s c = Some s' →
  hitlLoading s' = true.
Proof.
  intros Hne Hl Hc. destruct c; simpl in Hc; try discriminate Hne.
  - destruct (interval_live s); [|discriminate].
    injection Hc as <-. exact Hl.
  - destruct (inflight s) as [|n]; [discriminate|].
    injection Hc as <-. rewrite fetchAll_settled_hitlLoading. exact Hl.
  - injection Hc as <-. destruct r; exact Hl.
  - injection Hc as <-. destruct r; exact Hl.
  - injection Hc as <-. destruct r; exact Hl.
Qed.

Lemma step_hitlLoading s e s' :
  is_hitl_settled e = false →
  hitlLoading s = true →
  step s e = Some s' →
  hitlLoading s' = true.
Proof.
  intros Hne Hl Hstep.
  pose proof Hstep as Hstep'.
  apply step_cases in Hstep
    as [(s1 & Hrun & ->)|[[-> ->]|[(d & fb & -> & ->)|[[-> ->]|[-> ->]]]]];
    try exact Hl.
  - destruct (effect_completed_frame s s1)
      as (_ & _ & _ & _ & _ & _ & _ & _ & -> & _).
    apply (run_conts_keep (λ s, hitlLoading s = true)
             (λ c, is_chitl c = false) cont_hitlLoading
             (continuations e) s s1); [|exact Hl|exact Hrun].
    unfold is_hitl_settled in Hne.
    apply Forall_forall. intros c Hin.
    destruct (is_chitl c) eqn:Hc; [|reflexivity].
    assert (existsb is_chitl (continuations e) = true).
    { apply existsb_exists. exists c.
      split; [apply list_elem_of_In, Hin|exact Hc]. }
    congruence.
  - apply step_hitl_submit_inv in Hstep' as (Hgate & _ & _).
    unfold gate_enabled in Hgate. rewrite Hl, andb_false_r in Hgate.
    discriminate.
Qed.

Lemma steps_hitlLoading evs : ∀ s s',
  Forall (λ e, is_hitl_settled e = false) evs →
  hitlLoading s = true →
  steps s evs = Some s' →
  hitlLoading s' = true.
Proof.
  apply (steps_keep (λ s, hitlLoading s = true)
           (λ e, is_hitl_settled e = false)).
  intros s e s'. apply step_hitlLoading.
Qed.

(** X5.  At most one decision is in flight: from the click on a button of
    the gate until the command settles, whatever else happens to the page
    (cycles settling, the interval firing, other requests settling), no
    further decision can be submitted. *)
Theorem one_decision_in_flight s d fb s1 evs s2 :
  step s (HITLSubmit d fb) = Some s1 →
  Forall (λ e, is_hitl_settled e = false) evs →
  steps s1 evs = Some s2 →
  hitlLoading s2 = true
  ∧ ∀ d' fb', step s2 (HITLSubmit d' fb') = None.
Proof.
  intros Hclick Hall Hsteps.
  apply step_hitl_submit_inv in Hclick as (_ & _ & ->).
  assert (Hl : hitlLoading s2 = true).
  { eapply steps_hitlLoading; [exact Hall| |exact Hsteps]. reflexivity. }
  split; [exact Hl|].
  intros d' fb'. unfold step. destruct (mounted s2); simpl; [|reflexivity].
  unfold gate_enabled. rewrite Hl, andb_false_r. reflexivity.
Qed.

Lemma one_decision_in_flight_witness :
  let s := after [FetchAllSettled (poll_of (Fulfilled at_gate_1))] in
  let s1 := next s (HITLSubmit approved (units "looks good")) in
  let evs := [Tick; FetchAllSettled (poll_of (Fulfilled at_gate_1))] in
  let s2 := default s1 (steps s1 evs) in
  hitlLoading s2 = true
  ∧ ∀ d' fb', step s2 (HITLSubmit d' fb') = None.
Proof.
  intros s s1 evs s2.
  apply (one_decision_in_flight s approved (units "looks good") s1 evs s2).
  - vm_compute. reflexivity.
  - repeat constructor.
  - vm_compute. reflexivity.
Defined.

(** X6.  A decision the server refuses (the command is rejected) arms
    nothing: the run view and the flag are as before the click, the error
    shown is the detail given by the server, or the message of the error
    when there is none, and the gate can be used again at once: a button
    can be clicked exactly when it is not disabled for the feedback typed,
    so approve and reject always, and the request for changes when the
    feedback is not blank. *)
Theorem refused_decision_can_be_retried s d fb s1 e s2 :
  step s (HITLSubmit d fb) = Some s1 →
  step s1 (HITLSettled (Rejected e)) = Some s2 →
  run s2 = run s
  ∧ hitlJustApproved s2 = hitlJustApproved s
  ∧ error s2 = Some (js_or (response_detail e) (err_message e))
  ∧ hitlLoading s2 = false
  ∧ (∀ d' fb', is_Some (step s2 (HITLSubmit d' fb'))
               ↔ button_disabled d' false fb' = false)
  ∧ (∀ fb', is_Some (step s2 (HITLSubmit approved fb'))
            ∧ is_Some (step s2 (HITLSubmit rejected fb'))
            ∧ (is_Some (step s2 (HITLSubmit changes_requested fb'))
               ↔ trim fb' ≠ [])).
Proof.
  intros Hclick Hsettle.
  apply step_hitl_submit_inv in Hclick as (Hgate & Hm & ->).
  apply step_hitl_settled_inv in Hsettle as (_ & _ & ->).
  set (new := handleHITL_settled (Rejected e) (handleHITL_start s)).
  assert (Heq : effect_completed (handleHITL_start s) new = new).
  { apply effect_completed_same. reflexivity. }
  rewrite Heq.
  assert (Hstep : ∀ d' fb', step new (HITLSubmit d' fb')
            = if button_disabled d' false fb' then None
              else Some (handleHITL_start new)).
  { intros d' fb'. unfold step. subst new. simpl. rewrite Hm. simpl.
    unfold gate_enabled, body_rendered, isAtHITL, run_status in *. simpl.
    apply andb_prop in Hgate as [Hgate _]. rewrite Hgate. simpl.
    destruct (button_disabled d' false fb'); reflexivity. }
  assert (Hiff : ∀ d' fb', is_Some (step new (HITLSubmit d' fb'))
                           ↔ button_disabled d' false fb' = false).
  { intros d' fb'. rewrite Hstep.
    destruct (button_disabled d' false fb').
    - split; [intros [? H]; discriminate H|discriminate].
    - split; [reflexivity|eauto]. }
  repeat split; try exact (proj1 (Hiff _ _)); try exact (proj2 (Hiff _ _)).
  - apply Hiff. reflexivity.
  - apply Hiff. reflexivity.
  - intros Hs Hblank. apply Hiff in Hs. simpl in Hs.
    rewrite Hblank in Hs. discriminate Hs.
  - intros Hn. apply Hiff. simpl.
    destruct (trim fb') as [|c w] eqn:Ht; [contradiction|reflexivity].
Qed.

Lemma refused_decision_can_be_retried_witness :
  let s := after [FetchAllSettled (poll_of (Fulfilled at_gate_1))] in
  let s1 := next s (HITLSubmit rejected (units "no")) in
  let s2 := next s1 (HITLSettled (Rejected (refused "Run is not waiting"))) in
  run s2 = run s
  ∧ hitlJustApproved s2 = hitlJustApproved s
  ∧ error s2 = Some (js_or (response_detail (refused "Run is not waiting"))
                           (err_message (refused "Run is not waiting")))
  ∧ hitlLoading s2 = false
  ∧ (∀ d' fb', is_Some (step s2 (HITLSubmit d' fb'))
               ↔ button_disabled d' false fb' = false)
  ∧ (∀ fb', is_Some (step s2 (HITLSubmit approved fb'))
            ∧ is_Some (step s2 (HITLSubmit rejected fb'))
            ∧ (is_Some (step s2 (HITLSubmit changes_requested fb'))
               ↔ trim fb' ≠ [])).
Proof.
  intros s s1 s2.
  apply (refused_decision_can_be_retried s rejected (units "no") s1
           (refused "Run is not waiting") s2).
  - vm_compute. reflexivity.
  - vm_compute. reflexivity.
Defined.

(** The error shown for a refused decision, and for a request that got no
    response. *)
Example refused_decision_error_text :
  error_text (refused "Run is not waiting") = "Run is not waiting"
  ∧ error_text network_error = "Network Error".
Proof. split; reflexivity. Qed.

(** X7.  A stale result is masked, not dropped: while the flag is set, a
    result that still reports [waiting_hitl] replaces the brief, the four
    counters and the planning iteration of the view by its own; only
    status, phase and agent are overridden. *)
Theorem stale_result_refreshes_counters s res incoming s' :
  hitlJustApproved s = true →
  runRes res = Fulfilled incoming →
  status incoming = "waiting_hitl" →
  step s (FetchAllSettled res) = Some s' →
  ∃ r, run s' = Some r
       ∧ brief r = brief incoming
       ∧ num_requirements r = num_requirements incoming
       ∧ num_user_stories r = num_user_stories incoming
       ∧ num_test_cases r = num_test_cases incoming
       ∧ num_generated_files r = num_generated_files incoming
       ∧ planning_iteration r = planning_iteration incoming.
Proof.
  intros Hflag Hrun Hst Hstep.
  apply step_fetch_inv in Hstep as (n & _ & _ & ->).
  destruct (effect_completed_frame s
              (fetchAll_settled res (set_inflight n s))) as (-> & _).
  unfold fetchAll_settled. rewrite Hrun. simpl.
  destruct (apply_rest_frame res (apply_run incoming (set_inflight n s)))
    as (-> & _).
  unfold apply_run. simpl. rewrite Hflag, Hst. simpl.
  eexists. split; [reflexivity|]. repeat split.
Qed.

Lemma stale_result_refreshes_counters_witness :
  let incoming :=
    {| status := "waiting_hitl"; current_phase := "hitl_gate_1";
       current_agent := "HITL Gate 1"; brief := "inventory service";
       num_requirements := 6; num_user_stories := 5; num_test_cases := 2;
       num_generated_files := 0; planning_iteration := 2 |} in
  ∃ r, run (next approved_at_gate_1
              (FetchAllSettled (poll_of (Fulfilled incoming)))) = Some r
       ∧ brief r = brief incoming
       ∧ num_requirements r = num_requirements incoming
       ∧ num_user_stories r = num_user_stories incoming
       ∧ num_test_cases r = num_test_cases incoming
       ∧ num_generated_files r = num_generated_files incoming
       ∧ planning_iteration r = planning_iteration incoming.
Proof.
  intros incoming.
  apply (stale_result_refreshes_counters approved_at_gate_1
           (poll_of (Fulfilled incoming)) incoming).
  - vm_compute. reflexivity.
  - reflexivity.
  - reflexivity.
  - vm_compute. reflexivity.
Defined.

(** X8.  An acknowledgement that arrives after a cycle has already shown
    the run [completed] turns the view back to status [running] and sets
    the flag, while the interval, cleared on completion, stays cleared:
    no cycle of the interval will bring the view up to date, whether
    the page renders after each response or after several. *)
Theorem late_acknowledgement_after_completion s data s' :
  reachable s →
  run_status s = Some "completed" →
  hd_status data ≠ "already_processed" →
  step s (HITLSettled (Fulfilled data)) = Some s' →
  run_status s' = Some "running"
  ∧ hitlJustApproved s' = true
  ∧ interval_live s' = false
  ∧ ∀ evs s'', steps s' evs = Some s'' →
      interval_live s'' = false ∧ (Tick ∉ evs)
      ∧ (CTick ∉ trace_continuations evs).
Proof.
  intros Hreach Hc Hnot Hstep.
  assert (Hoff : interval_live s = false).
  { apply reachable_completed_is_idle in Hreach. exact (Hreach Hc). }
  apply step_hitl_settled_inv in Hstep as (_ & _ & ->).
  assert (Hoff' : interval_live
                    (effect_completed s
                       (handleHITL_settled (Fulfilled data) s)) = false).
  { apply effect_completed_interval.
    rewrite handleHITL_settled_interval. exact Hoff. }
  assert (Hview : run_status (effect_completed s
                                (handleHITL_settled (Fulfilled data) s))
                  = Some "running"
                  ∧ hitlJustApproved
                      (effect_completed s
                         (handleHITL_settled (Fulfilled data) s)) = true).
  { unfold run_status in *.
    destruct (effect_completed_frame s
                (handleHITL_settled (Fulfilled data) s))
      as (-> & _ & _ & _ & _ & _ & _ & _ & _ & -> & _).
    unfold handleHITL_settled.
    apply String.eqb_neq in Hnot. rewrite Hnot. simpl.
    destruct (run s) as [r|]; [|discriminate Hc]. simpl.
    split; reflexivity. }
  destruct Hview as [Hst Hflag].
  split; [exact Hst|]. split; [exact Hflag|]. split; [exact Hoff'|].
  intros evs s''. apply steps_interval_cleared. exact Hoff'.
Qed.

Lemma late_acknowledgement_after_completion_witness :
  let s' := next completed_before_ack (HITLSettled (Fulfilled ack_plain)) in
  run_status s' = Some "running"
  ∧ hitlJustApproved s' = true
  ∧ interval_live s' = false
  ∧ ∀ evs s'', steps s' evs = Some s'' →
      interval_live s'' = false ∧ (Tick ∉ evs)
      ∧ (CTick ∉ trace_continuations evs).
Proof.
  intros s'.
  apply (late_acknowledgement_after_completion completed_before_ack
           ack_plain s').
  - exists until_decision_at_gate_2. vm_compute. reflexivity.
  - vm_compute. reflexivity.
  - discriminate.
  - vm_compute. reflexivity.
Defined.

(** * Further properties of the timeline *)

(** ** The object [latestByAgent] *)

Lemma assign_keys {A} k (v : A) obj :
  (assign k v obj).*1
  = if decide (k ∈ obj.*1) then obj.*1 else (obj.*1 ++ [k])%list.
Proof.
  induction obj as [|[k' v'] rest IH].
  - destruct (decide (k ∈ ([] : list (string * A)).*1)) as [H|_];
      [apply elem_of_nil in H; contradiction|reflexivity].
  - cbn [assign].
    destruct (String.eqb_spec k' k) as [->|Hne].
    + destruct (decide (k ∈ ((k, v') :: rest).*1)) as [_|Hnin];
        [reflexivity|].
      contradiction Hnin. apply list_elem_of_here.
    + rewrite !fmap_cons, IH. cbn [fst].
      destruct (decide (k ∈ rest.*1)) as [Hin|Hnin];
        destruct (decide (k ∈ k' :: rest.*1)) as [Hin'|Hnin'];
        try reflexivity.
      * contradiction Hnin'. apply list_elem_of_further, Hin.
      * apply elem_of_cons in Hin' as [->|Hin']; contradiction.
Qed.

Lemma assign_elem_of {A} k (v : A) obj a e :
  NoDup obj.*1 →
  (a, e) ∈ assign k v obj ↔ (a = k ∧ e = v) ∨ (a ≠ k ∧ (a, e) ∈ obj).
Proof.
  induction obj as [|[k' v'] rest IH]; simpl; intros Hnd.
  - rewrite list_elem_of_singleton. split.
    + intros [= -> ->]. left. auto.
    + intros [[-> ->]|[_ H]]; [reflexivity|].
      apply elem_of_nil in H. contradiction.
  - apply NoDup_cons in Hnd as [Hk' Hnd].
    destruct (String.eqb_spec k' k) as [->|Hne].
    + rewrite !elem_of_cons. split.
      * intros [[= -> ->]|Hin]; [left; auto|].
        right. split; [|right; exact Hin].
        intros ->. apply Hk'.
        apply (list_elem_of_fmap_2 fst) in Hin. exact Hin.
      * intros [[-> ->]|[Hne [[= Heq _]|Hin]]];
          [left; reflexivity|contradiction|right; exact Hin].
    + rewrite !elem_of_cons, (IH Hnd). split.
      * intros [[= -> ->]|[[-> ->]|[Hak Hin]]].
        -- right. split; [exact Hne|left; reflexivity].
        -- left. auto.
        -- right. split; [exact Hak|right; exact Hin].
      * intros [[-> ->]|[Hak [[= -> ->]|Hin]]].
        -- right. left. auto.
        -- left. reflexivity.
        -- right. right. auto.
Qed.

Lemma latestByAgent_snoc log x :
  latestByAgent (log ++ [x]) = assign (agent x) x (latestByAgent log).
Proof. unfold latestByAgent. rewrite fold_left_app. reflexivity. Qed.

Lemma latestByAgent_NoDup log : NoDup (latestByAgent log).*1.
Proof.
  induction log as [|x log IH] using rev_ind.
  - apply NoDup_nil_2.
  - rewrite latestByAgent_snoc, assign_keys.
    destruct (decide (agent x ∈ (latestByAgent log).*1)) as [|Hnin];
      [exact IH|].
    apply NoDup_app. split; [exact IH|]. split.
    + intros k Hk Hk'. apply list_elem_of_singleton in Hk' as ->.
      contradiction.
    + apply NoDup_singleton.
Qed.

Lemma latest_of_snoc a log x :
  latest_of a (log ++ [x])
  = if decide (agent x = a) then Some x else latest_of a log.
Proof.
  unfold latest_of. rewrite filter_app.
  destruct (decide (agent x = a)) as [Heq|Hne].
  - rewrite filter_cons_True by exact Heq. rewrite filter_nil.
    apply last_snoc.
  - rewrite filter_cons_False by exact Hne. rewrite filter_nil.
    rewrite app_nil_r. reflexivity.
Qed.

Lemma latestByAgent_elem_of log a e :
  (a, e) ∈ latestByAgent log ↔ latest_of a log = Some e.
Proof.
  revert a e. induction log as [|x log IH] using rev_ind; intros a e.
  - unfold latestByAgent, latest_of. simpl. rewrite elem_of_nil.
    split; [contradiction|discriminate].
  - rewrite latestByAgent_snoc, latest_of_snoc.
    rewrite (assign_elem_of _ _ _ _ _ (latestByAgent_NoDup log)).
    destruct (decide (agent x = a)) as [Heq|Hne].
    + split.
      * intros [[_ ->]|[Hna _]]; [reflexivity|]. congruence.
      * intros [= ->]. left. auto.
    + rewrite IH. split.
      * intros [[-> _]|[_ H]]; [contradiction Hne; reflexivity|exact H].
      * intros H. right. split; [congruence|exact H].
Qed.

(** ** The agents of a row *)

Lemma phaseAgents_elem_of cur latest i ph a e :
  (a, e) ∈ phaseAgents (phase_row cur latest i ph)
  ↔ (a, e) ∈ latest ∧ AGENT_PHASE !! a = Some (key ph).
Proof.
  cbn [phaseAgents phase_row].
  rewrite list_elem_of_In, filter_In, <- list_elem_of_In.
  rewrite bool_decide_eq_true. reflexivity.
Qed.

Lemma filter_keys_NoDup {A} (f : string * A → bool) (l : list (string * A)) :
  NoDup l.*1 → NoDup (List.filter f l).*1.
Proof.
  induction l as [|[k v] l IH]; simpl; intros Hnd; [exact Hnd|].
  apply NoDup_cons in Hnd as [Hk Hnd].
  destruct (f (k, v)); simpl; [|auto].
  apply NoDup_cons. split; [|auto].
  intros Hin. apply Hk.
  apply list_elem_of_fmap in Hin as ([k' v'] & -> & Hin).
  apply list_elem_of_In, filter_In in Hin as [Hin _].
  apply list_elem_of_In in Hin.
  apply (list_elem_of_fmap_2 fst) in Hin. exact Hin.
Qed.

(** X9.  The agents listed with a phase are exactly the agents that
    [AGENT_PHASE] assigns to that phase and that occur in the activity
    log, each with its latest entry: a later entry of an agent replaces an
    earlier one, and agents the table does not know are listed
    nowhere. *)
Theorem phaseAgents_latest_entries r log i row a e :
  PipelineTracker r log !! i = Some row →
  (a, e) ∈ phaseAgents row
  ↔ AGENT_PHASE !! a = Some (key (phase row)) ∧ latest_of a log = Some e.
Proof.
  intros Hrow.
  apply PipelineTracker_lookup in Hrow as (ph & _ & ->).
  rewrite phaseAgents_elem_of, latestByAgent_elem_of. cbn [phase phase_row].
  split; intros [H1 H2]; split; assumption.
Qed.

Lemma phaseAgents_latest_entries_witness :
  let r := sample_run "running" "building" "QA Agent" in
  let row := phase_row (phaseIndex "building") (latestByAgent sample_log)
               0 {| key := "planning"; label := "Planificación";
                    phase_icon := "🔍";
                    agents := ["BA → PO → Architect → Evaluator"] |} in
  ("BA Agent", sample_entry "BA Agent" "requirements ready")
    ∈ phaseAgents row
  ↔ AGENT_PHASE !! "BA Agent" = Some (key (phase row))
    ∧ latest_of "BA Agent" sample_log
      = Some (sample_entry "BA Agent" "requirements ready").
Proof.
  intros r row.
  apply (phaseAgents_latest_entries r sample_log 0 row).
  reflexivity.
Defined.

(** X10.  In a timeline every agent is listed at most once: not twice
    with one phase, and not with two phases. *)
Theorem agent_listed_once r log i j row row' :
  PipelineTracker r log !! i = Some row →
  PipelineTracker r log !! j = Some row' →
  NoDup (phaseAgents row).*1
  ∧ ∀ a e e', (a, e) ∈ phaseAgents row → (a, e') ∈ phaseAgents row' →
      i = j ∧ e = e'.
Proof.
  intros Hi Hj.
  apply PipelineTracker_lookup in Hi as (ph & Hph & ->).
  apply PipelineTracker_lookup in Hj as (ph' & Hph' & ->).
  split.
  - cbn [phaseAgents phase_row].
    apply filter_keys_NoDup, latestByAgent_NoDup.
  - intros a e e'. rewrite !phaseAgents_elem_of, !latestByAgent_elem_of.
    intros [He Ha] [He' Ha'].
    rewrite He in He'. injection He' as <-.
    rewrite Ha in Ha'. injection Ha' as Hkey.
    split; [|reflexivity].
    apply phaseIndex_position in Hph, Hph'.
    rewrite Hkey in Hph. lia.
Qed.

Lemma agent_listed_once_witness :
  let r := sample_run "running" "building" "QA Agent" in
  let planning :=
    {| key := "planning"; label := "Planificación"; phase_icon := "🔍";
       agents := ["BA → PO → Architect → Evaluator"] |} in
  let row := phase_row (phaseIndex "building") (latestByAgent sample_log)
               0 planning in
  NoDup (phaseAgents row).*1
  ∧ ∀ a e e', (a, e) ∈ phaseAgents row → (a, e') ∈ phaseAgents row →
      0%nat = 0%nat ∧ e = e'.
Proof.
  intros r planning row.
  apply (agent_listed_once r sample_log 0 0 row row); reflexivity.
Defined.

Lemma filter_cons_key {A} (f : string → bool) k (v : A) l :
  List.filter (λ '(a, _), f a) ((k, v) :: l)
  = if f k then (k, v) :: List.filter (λ '(a, _), f a) l
    else List.filter (λ '(a, _), f a) l.
Proof. reflexivity. Qed.

Lemma filter_assign_keys {A} (f : string → bool) k (v : A) obj :
  (List.filter (λ '(a, _), f a) (assign k v obj)).*1
  = ((List.filter (λ '(a, _), f a) obj).*1
     ++ if f k && bool_decide (k ∉ obj.*1) then [k] else [])%list.
Proof.
  induction obj as [|[k' v'] rest IH].
  - simpl. destruct (f k); reflexivity.
  - cbn [assign]. destruct (String.eqb_spec k' k) as [->|Hne].
    + rewrite bool_decide_eq_false_2, andb_false_r, app_nil_r.
      * rewrite !filter_cons_key. destruct (f k); reflexivity.
      * intros Hnin. apply Hnin. rewrite fmap_cons. apply list_elem_of_here.
    + assert (Hiff : bool_decide (k ∉ ((k', v') :: rest).*1)
                     = bool_decide (k ∉ rest.*1)).
      { apply bool_decide_ext. rewrite fmap_cons, not_elem_of_cons.
        split; [intros [_ H]; exact H|].
        intros H. split; [simpl; congruence|exact H]. }
      rewrite Hiff, !filter_cons_key.
      destruct (f k'); rewrite ?fmap_cons, IH; reflexivity.
Qed.

(** X11.  A new entry in the activity log does not reorder the agents of
    a row: the agents already listed keep their places, and the agent of
    the new entry is added at the end when it belongs to the phase of the
    row and was not listed yet. *)
Theorem new_entry_keeps_order r log x i row row' :
  PipelineTracker r log !! i = Some row →
  PipelineTracker r (log ++ [x]) !! i = Some row' →
  (phaseAgents row').*1
  = ((phaseAgents row).*1
     ++ if bool_decide (AGENT_PHASE !! agent x = Some (key (phase row)))
           && bool_decide (agent x ∉ (phaseAgents row).*1)
        then [agent x] else [])%list.
Proof.
  intros Hrow Hrow'.
  apply PipelineTracker_lookup in Hrow as (ph & Hph & ->).
  apply PipelineTracker_lookup in Hrow' as (ph' & Hph' & ->).
  rewrite Hph in Hph'. injection Hph' as <-.
  cbn [phaseAgents phase_row phase]. rewrite latestByAgent_snoc.
  rewrite (filter_assign_keys
             (λ a, bool_decide (AGENT_PHASE !! a = Some (key ph)))).
  f_equal.
  destruct (decide (AGENT_PHASE !! agent x = Some (key ph))) as [Hf|Hf];
    [|rewrite (bool_decide_eq_false_2 _ Hf); reflexivity].
  rewrite (bool_decide_eq_true_2 _ Hf). cbn [andb].
  rewrite (bool_decide_ext (agent x ∉ (latestByAgent log).*1)
             (agent x ∉ (List.filter
                (λ '(a, _), bool_decide (AGENT_PHASE !! a = Some (key ph)))
                (latestByAgent log)).*1)); [reflexivity|].
  split; intros Hnin Hin; apply Hnin.
  - apply list_elem_of_fmap in Hin as ([a e] & Heq & Hin).
    apply list_elem_of_In, filter_In in Hin as [Hin _].
    apply list_elem_of_In in Hin.
    apply list_elem_of_fmap. exists (a, e). split; [exact Heq|exact Hin].
  - apply list_elem_of_fmap in Hin as ([a e] & Heq & Hin).
    apply list_elem_of_fmap. exists (a, e). split; [exact Heq|].
    apply list_elem_of_In, filter_In. split.
    + apply list_elem_of_In. exact Hin.
    + apply bool_decide_eq_true. simpl in Heq. rewrite <- Heq. exact Hf.
Qed.

Lemma new_entry_keeps_order_witness :
  let r := sample_run "running" "building" "QA Agent" in
  let x := sample_entry "Frontend Builder" "writing pages" in
  let row := phase_row (phaseIndex "building") (latestByAgent sample_log)
               2 building_phase in
  let row' := phase_row (phaseIndex "building")
                (latestByAgent (sample_log ++ [x])) 2 building_phase in
  (phaseAgents row').*1
  = ((phaseAgents row).*1
     ++ if bool_decide (AGENT_PHASE !! agent x = Some (key (phase row)))
           && bool_decide (agent x ∉ (phaseAgents row).*1)
        then [agent x] else [])%list.
Proof.
  intros r x row row'.
  apply (new_entry_keeps_order r sample_log x 2 row row'); reflexivity.
Defined.

(** The agents of the building phase after one more entry: the two agents
    already listed keep their order, the new one comes last. *)
Example agents_after_new_entry :
  (phaseAgents
     (phase_row (phaseIndex "building")
        (latestByAgent
           (sample_log ++ [sample_entry "Backend Builder" "API done";
                           sample_entry "Frontend Builder" "writing pages"]))
        2 building_phase)).*1
  = ["Backend Builder"; "QA Agent"; "Frontend Builder"].
Proof. vm_compute. reflexivity. Qed.

(** ** The current row *)

Lemma phaseIndex_bounds p : (0 ≤ phaseIndex p < 7)%Z.
Proof.
  unfold phaseIndex, findIndex. cbn [PHASES findIndex_from key].
  repeat (destruct (String.eqb _ p); [vm_compute; split; congruence|]).
  vm_compute; split; congruence.
Qed.

(** X12.  Whatever [current_phase] is, known or not, the timeline has
    seven rows and exactly one of them is current; the rows before it are
    done and the rows after it pending. *)
Theorem one_current_row r log :
  ∃ c : nat,
    phaseIndex (current_phase r) = Z.of_nat c
    ∧ (c < 7)%nat
    ∧ length (PipelineTracker r log) = 7%nat
    ∧ ∀ i row, PipelineTracker r log !! i = Some row →
        (isCurrent row = true ↔ i = c)
        ∧ (isDone row = true ↔ (i < c)%nat)
        ∧ (isPending row = true ↔ (c < i)%nat).
Proof.
  pose proof (phaseIndex_bounds (current_phase r)) as Hb.
  exists (Z.to_nat (phaseIndex (current_phase r))).
  split; [lia|]. split; [lia|].
  split; [unfold PipelineTracker; rewrite length_imap; reflexivity|].
  intros i row Hrow.
  apply PipelineTracker_lookup in Hrow as (ph & _ & ->).
  cbn [isCurrent isDone isPending phase_row].
  rewrite Z.eqb_eq, Z.ltb_lt, Z.gtb_lt. lia.
Qed.

(** X13.  A [current_phase] that is not a key of the table is shown as
    [planning]: its index is 0 and the timeline is that of a run in
    planning. *)
Theorem unknown_phase_shown_as_planning r log :
  current_phase r ∉ phase_keys →
  phaseIndex (current_phase r) = 0%Z
  ∧ PipelineTracker r log = PipelineTracker (with_phase "planning" r) log.
Proof.
  intros Hnot.
  assert (H0 : phaseIndex (current_phase r) = 0%Z).
  { unfold phase_keys in Hnot.
    repeat (apply not_elem_of_cons in Hnot as [?%not_eq_sym%String.eqb_neq Hnot]).
    unfold phaseIndex, findIndex. cbn [PHASES findIndex_from key].
    repeat match goal with H : String.eqb _ _ = false |- _ =>
      rewrite H; clear H end.
    reflexivity. }
  split; [exact H0|].
  unfold PipelineTracker. rewrite H0. reflexivity.
Qed.

Lemma unknown_phase_shown_as_planning_witness :
  let r := sample_run "running" "deploying" "" in
  phaseIndex (current_phase r) = 0%Z
  ∧ PipelineTracker r sample_log
    = PipelineTracker (with_phase "planning" r) sample_log.
Proof.
  intros r.
  apply (unknown_phase_shown_as_planning r sample_log).
  unfold phase_keys. rewrite !not_elem_of_cons.
  repeat split; try discriminate. apply not_elem_of_nil.
Defined.

(** ** What a row shows *)

(** X14.  Agents and badges appear with the current and the finished
    phases only: a pending row shows no agent and no badge, even when the
    log has entries of its agents; live agents and the running badge need
    status [running], so a run waiting at a gate shows no live agent in
    any row; and no row shows both chips and live agents. *)
Theorem pending_rows_show_nothing r log i row :
  PipelineTracker r log !! i = Some row →
  (isPending row = true →
     done_chips row = [] ∧ live_agents r row = []
     ∧ badge_waiting r row = false ∧ badge_running r row = false)
  ∧ (status r ≠ "running" →
     live_agents r row = [] ∧ badge_running r row = false)
  ∧ (done_chips row = [] ∨ live_agents r row = [])
  ∧ (badge_waiting r row = true ∨ badge_running r row = true
     ∨ live_agents r row ≠ [] →
     Z.of_nat i = phaseIndex (current_phase r)).
Proof.
  intros Hrow.
  apply PipelineTracker_lookup in Hrow as (ph & _ & ->).
  unfold done_chips, live_agents, badge_waiting, badge_running.
  cbn [isCurrent isDone isPending phase_row].
  set (cur := phaseIndex (current_phase r)).
  set (ags := phaseAgents _).
  destruct (Z.ltb_spec (Z.of_nat i) cur) as [Hlt|Hge];
    destruct (Z.eqb_spec (Z.of_nat i) cur) as [Heq|Hne];
    destruct (Z.gtb_spec (Z.of_nat i) cur) as [Hgt|Hle];
    try lia; cbn [andb].
  - split; [discriminate|]. split; [auto|]. split; [right; reflexivity|].
    intros [H|[H|H]]; [discriminate|discriminate|contradiction].
  - split; [discriminate|]. split; [|split; [left; reflexivity|auto]].
    intros Hst. apply String.eqb_neq in Hst. rewrite Hst. auto.
  - split; [auto|]. split; [auto|]. split; [left; reflexivity|].
    intros [H|[H|H]]; [discriminate|discriminate|contradiction].
Qed.

Lemma pending_rows_show_nothing_witness :
  let r := sample_run "waiting_hitl" "hitl_gate_1" "" in
  let row := phase_row (phaseIndex "hitl_gate_1") (latestByAgent sample_log)
               2 building_phase in
  (isPending row = true →
     done_chips row = [] ∧ live_agents r row = []
     ∧ badge_waiting r row = false ∧ badge_running r row = false)
  ∧ (status r ≠ "running" →
     live_agents r row = [] ∧ badge_running r row = false)
  ∧ (done_chips row = [] ∨ live_agents r row = [])
  ∧ (badge_waiting r row = true ∨ badge_running r row = true
     ∨ live_agents r row ≠ [] →
     Z.of_nat 2 = phaseIndex (current_phase r)).
Proof.
  intros r row.
  apply (pending_rows_show_nothing r sample_log 2 row). reflexivity.
Defined.

(** The agents of the building phase are in the log, but while the run
    waits at gate 1 the row of that phase lists none of them. *)
Example building_agents_hidden_at_gate_1 :
  let row := phase_row (phaseIndex "hitl_gate_1") (latestByAgent sample_log)
               2 building_phase in
  (phaseAgents row).*1 = ["Backend Builder"; "QA Agent"]
  ∧ done_chips row = []
  ∧ live_agents (sample_run "waiting_hitl" "hitl_gate_1" "") row = [].
Proof. vm_compute. repeat split. Qed.

(** ** The clock of an entry *)

(** X15.  The clock shown with an activity entry is the time of day of
    its timestamp, counted in UTF-16 code units: of a timestamp made of
    eleven code units of date and separator, eight code units of time and
    anything after them, it is the eight code units of time.  It never
    has more than eight code units, a timestamp of eleven code units or
    fewer gives the empty string, and so does an entry that has no
    timestamp. *)
Theorem clock_reads_time (d t rest ts : ustring) :
  length d = 11 →
  length t = 8 →
  clock (d ++ t ++ rest)%list = t
  ∧ (length (clock ts) ≤ 8)%nat
  ∧ ((length ts ≤ 11)%nat → clock ts = [])
  ∧ ∀ e, (timestamp e = Some (d ++ t ++ rest)%list → entry_time e = t)
         ∧ (timestamp e = None → entry_time e = []).
Proof.
  intros Hd Ht.
  assert (Hclock : clock (d ++ t ++ rest)%list = t).
  { unfold clock, slice. rewrite <- Hd, drop_app_length.
    change (19 - length d)%nat with (19 - 11)%nat. rewrite Hd. simpl.
    rewrite <- Ht. apply take_app_length. }
  split; [exact Hclock|]. split; [|split].
  - unfold clock, slice. rewrite length_take. apply Nat.le_min_l.
  - intros Hlen. unfold clock, slice.
    rewrite (drop_ge ts 11 Hlen). apply take_nil.
  - intros e. unfold entry_time. split; intros ->; [exact Hclock|reflexivity].
Qed.

Lemma clock_reads_time_witness :
  let d := units "2025-01-01T" in
  let t := units "10:00:00" in
  let rest := units ".123456" in
  let ts := units "yesterday" in
  clock (d ++ t ++ rest)%list = t
  ∧ (length (clock ts) ≤ 8)%nat
  ∧ ((length ts ≤ 11)%nat → clock ts = [])
  ∧ ∀ e, (timestamp e = Some (d ++ t ++ rest)%list → entry_time e = t)
         ∧ (timestamp e = None → entry_time e = []).
Proof.
  intros d t rest ts.
  apply (clock_reads_time d t rest ts); reflexivity.
Defined.

(** A character outside the basic plane takes two positions of the
    timestamp: the slice is made in code units. *)
Example clock_counts_code_units :
  clock ([55357; 56832]%N ++ units "25-01-01T10:00:00")%list
  = units "10:00:00".
Proof. reflexivity. Qed.

(** * Properties of the home page *)

Lemma trimStart_nil s : trimStart s = [] ↔ Forall (λ c, isWhiteSpace c = true) s.
Proof.
  induction s as [|c s IH]; simpl.
  - split; [constructor|reflexivity].
  - destruct (isWhiteSpace c) eqn:Hc.
    + rewrite IH. split; [intros H; constructor; assumption|].
      intros H. apply Forall_cons in H as [_ H]. exact H.
    + split; [discriminate|].
      intros H. apply Forall_cons in H as [H _]. congruence.
Qed.

Lemma trimStart_fixed s :
  Forall (λ c, isWhiteSpace c = true) (trimStart s) → trimStart s = [].
Proof.
  induction s as [|c s IH]; simpl; [reflexivity|].
  destruct (isWhiteSpace c) eqn:Hc; [exact IH|].
  intros H. apply Forall_cons in H as [H _]. congruence.
Qed.

Lemma reverse_eq_nil_iff {A} (l : list A) : reverse l = [] ↔ l = [].
Proof.
  split; [|intros ->; reflexivity].
  intros H. apply (f_equal length) in H. rewrite length_reverse in H.
  destruct l; [reflexivity|discriminate].
Qed.

Lemma trim_nil s : trim s = [] ↔ Forall (λ c, isWhiteSpace c = true) s.
Proof.
  unfold trim, trimEnd.
  rewrite reverse_eq_nil_iff, trimStart_nil, Forall_reverse.
  split.
  - intros H. apply trimStart_nil, trimStart_fixed, H.
  - intros H. apply trimStart_nil in H. rewrite H. constructor.
Qed.

Lemma truthy_false (piece : ustring) : truthy piece = false ↔ piece = [].
Proof. destruct piece; split; try reflexivity; discriminate. Qed.

(** The words counted from the middle of a string: [cur] is the piece
    being read. *)
Lemma count_from_zero s : ∀ cur in_ws,
  (in_ws = true → cur = []) →
  length (List.filter truthy (split_ws_from cur in_ws s)) = 0%nat
  ↔ cur = [] ∧ Forall (λ c, isWhiteSpace c = true) s.
Proof.
  induction s as [|c s IH]; intros cur in_ws Hinv; simpl.
  - destruct (truthy (reverse cur)) eqn:Ht; simpl.
    + split; [discriminate|]. intros [-> _]. discriminate Ht.
    + apply truthy_false in Ht.
      apply (proj1 (reverse_eq_nil_iff _)) in Ht.
      split; [intros _; split; [exact Ht|constructor]|reflexivity].
  - destruct (isWhiteSpace c) eqn:Hc.
    + destruct in_ws.
      * rewrite (IH [] true (λ _, eq_refl)), (Hinv eq_refl).
        split; [intros [_ H]; split; [reflexivity|constructor; assumption]|].
        intros [_ H]. apply Forall_cons in H as [_ H]. auto.
      * simpl. destruct (truthy (reverse cur)) eqn:Ht; simpl.
        -- split; [discriminate|]. intros [-> _]. discriminate Ht.
        -- apply truthy_false in Ht.
      apply (proj1 (reverse_eq_nil_iff _)) in Ht.
           rewrite (IH [] true (λ _, eq_refl)).
           split; [intros [_ H]; split; [exact Ht|constructor; assumption]|].
           intros [_ H]. apply Forall_cons in H as [_ H]. auto.
    + rewrite (IH (c :: cur) false) by discriminate.
      split; [intros [H _]; discriminate H|].
      intros [_ H]. apply Forall_cons in H as [H _]. congruence.
Qed.

Lemma word_count_zero s :
  word_count s = 0%nat ↔ Forall (λ c, isWhiteSpace c = true) s.
Proof.
  unfold word_count, split_ws.
  rewrite (count_from_zero s [] false) by discriminate.
  split; [intros [_ H]; exact H|auto].
Qed.

(** X16.  A brief made of white space only (spaces, tabs, line breaks,
    no-break spaces and the like) cannot start a run: the start button is
    disabled, [handleSubmit] returns without calling the server and
    without touching the state, and the word counter, when it is shown,
    reads 0; for any other brief the counter is positive and
    [handleSubmit] calls the server. *)
Theorem blank_brief_starts_nothing h :
  (Forall (λ c, isWhiteSpace c = true) (hp_brief h)
   ↔ handleSubmit_start h = (h, false))
  ∧ (Forall (λ c, isWhiteSpace c = true) (hp_brief h)
     ↔ word_count (hp_brief h) = 0%nat)
  ∧ (Forall (λ c, isWhiteSpace c = true) (hp_brief h)
     → start_disabled h = true)
  ∧ (snd (handleSubmit_start h) = true
     ↔ (0 < word_count (hp_brief h))%nat).
Proof.
  pose proof (trim_nil (hp_brief h)) as Htrim.
  pose proof (word_count_zero (hp_brief h)) as Hwc.
  unfold handleSubmit_start, start_disabled.
  destruct (trim (hp_brief h)) as [|c t] eqn:Ht; simpl.
  - assert (Hws : Forall (λ c, isWhiteSpace c = true) (hp_brief h))
      by (apply Htrim; reflexivity).
    split; [split; auto|]. split; [symmetry; exact Hwc|].
    split; [intros _; apply orb_true_r|].
    apply Hwc in Hws. rewrite Hws. split; [discriminate|lia].
  - assert (Hnws : ¬ Forall (λ c, isWhiteSpace c = true) (hp_brief h)).
    { intros H. apply Htrim in H. discriminate H. }
    split; [split; [contradiction|discriminate]|].
    split; [symmetry; exact Hwc|].
    split; [contradiction|].
    split; [intros _|reflexivity].
    destruct (word_count (hp_brief h)) eqn:Hn; [|lia].
    contradiction Hnws. apply Hwc. reflexivity.
Qed.

Lemma count_from_ws_start s :
  length (List.filter truthy (split_ws_from [] true s))
  = length (List.filter truthy (split_ws_from [] false s)).
Proof.
  destruct s as [|c s]; simpl; [reflexivity|].
  destruct (isWhiteSpace c); reflexivity.
Qed.

Lemma count_from_app a : ∀ cur in_ws w b,
  (in_ws = true → cur = []) →
  isWhiteSpace w = true →
  length (List.filter truthy (split_ws_from cur in_ws (a ++ w :: b)))
  = (length (List.filter truthy (split_ws_from cur in_ws a))
     + length (List.filter truthy (split_ws_from [] false b)))%nat.
Proof.
  induction a as [|c a IH]; intros cur in_ws w b Hinv Hw; simpl.
  - rewrite Hw. destruct in_ws.
    + rewrite (Hinv eq_refl). simpl. apply count_from_ws_start.
    + simpl. destruct (truthy (reverse cur)); simpl;
        rewrite count_from_ws_start; reflexivity.
  - destruct (isWhiteSpace c).
    + destruct in_ws.
      * apply IH; [reflexivity|exact Hw].
      * simpl. destruct (truthy (reverse cur)); simpl;
          rewrite (IH [] true w b (λ _, eq_refl) Hw); reflexivity.
    + apply IH; [discriminate|exact Hw].
Qed.

Lemma split_ws_from_word u : ∀ cur in_ws,
  Forall (λ c, isWhiteSpace c = false) u →
  split_ws_from cur in_ws u = [reverse (reverse u ++ cur)].
Proof.
  induction u as [|c u IH]; intros cur in_ws Hu; simpl.
  - reflexivity.
  - apply Forall_cons in Hu as [Hc Hu]. rewrite Hc.
    rewrite (IH (c :: cur) false Hu), reverse_cons, <- app_assoc.
    reflexivity.
Qed.

(** X17.  The word counter counts the maximal runs of code units that are
    not white space: a string without white space that is not empty
    counts as one word, and a white space code unit between two strings
    adds their counts, however much white space surrounds it. *)
Theorem word_count_counts_runs a w b u :
  isWhiteSpace w = true →
  Forall (λ c, isWhiteSpace c = false) u →
  u ≠ [] →
  word_count (a ++ w :: b) = (word_count a + word_count b)%nat
  ∧ word_count u = 1%nat.
Proof.
  intros Hw Hu Hne. unfold word_count, split_ws. split.
  - apply count_from_app; [discriminate|exact Hw].
  - rewrite (split_ws_from_word u [] false Hu), app_nil_r, reverse_involutive.
    destruct u; [contradiction|reflexivity].
Qed.

Lemma word_count_counts_runs_witness :
  word_count (units "  build a" ++ 10%N :: units "  to-do   app ")
  = (word_count (units "  build a") + word_count (units "  to-do   app "))%nat
  ∧ word_count (units "to-do") = 1%nat.
Proof.
  apply (word_count_counts_runs (units "  build a") 10%N
           (units "  to-do   app ") (units "to-do")).
  - reflexivity.
  - repeat constructor.
  - discriminate.
Defined.

(** The counter on a brief of four words spread over two lines. *)
Example word_count_of_a_brief :
  word_count (units "  build a" ++ 10%N :: units "  to-do   app ") = 4%nat
  ∧ split_ws (units " a  b ") = [[]; units "a"; units "b"; []]
  ∧ split_ws [] = [[]].
Proof. vm_compute. repeat split. Qed.

(** * Properties of the gate *)

(** X18.  Changes can be requested only with a feedback that has a code
    unit other than white space; approving and rejecting need no
    feedback.  While a decision is being sent all three buttons are
    disabled. *)
Theorem changes_need_feedback d loading feedback :
  button_disabled d loading feedback = false
  ↔ loading = false
    ∧ (d = changes_requested →
       Exists (λ c, isWhiteSpace c = false) feedback).
Proof.
  assert (Hblank : truthy (trim feedback) = false
                   ↔ ¬ Exists (λ c, isWhiteSpace c = false) feedback).
  { rewrite truthy_false, trim_nil, <- Forall_Exists_neg.
    apply Forall_iff. intros c. destruct (isWhiteSpace c); split;
      congruence. }
  destruct d, loading; simpl.
  - split; [discriminate|intros [H _]; discriminate H].
  - split; [intros _; split; [reflexivity|discriminate]|reflexivity].
  - split; [discriminate|intros [H _]; discriminate H].
  - rewrite negb_false_iff. split.
    + intros Ht. split; [reflexivity|]. intros _.
      destruct (decide (Exists (λ c, isWhiteSpace c = false) feedback))
        as [Hex|Hnex]; [exact Hex|].
      apply Hblank in Hnex. congruence.
    + intros [_ Hex].
      destruct (truthy (trim feedback)); [reflexivity|].
      contradiction (proj1 Hblank eq_refl (Hex eq_refl)).
  - split; [discriminate|intros [H _]; discriminate H].
  - split; [intros _; split; [reflexivity|discriminate]|reflexivity].
Qed.

(** * The life of the overlay flag *)

Lemma cont_flag_kept s c s' :
  ¬ cont_reports_progress c →
  hitlJustApproved s = true →
  cont_step s c = Some s' →
  hitlJustApproved s' = true.
Proof.
  intros Hnp Hflag Hc. destruct c; simpl in Hc.
  - destruct (interval_live s); [|discriminate].
    injection Hc as <-. exact Hflag.
  - destruct (inflight s) as [|n]; [discriminate|].
    injection Hc as <-.
    unfold fetchAll_settled. simpl in Hnp.
    destruct (runRes res) as [incoming|reason]; simpl.
    + destruct (apply_rest_frame res
                  (apply_run incoming (set_inflight n s)))
        as (_ & _ & _ & _ & -> & _).
      unfold apply_run. simpl. rewrite Hflag.
      destruct (String.eqb_spec (status incoming) "waiting_hitl")
        as [_|Hne]; simpl; [exact Hflag|contradiction].
    + destruct (is_404 reason); simpl; [exact Hflag|].
      destruct (apply_rest_frame res (set_inflight n s))
        as (_ & _ & _ & _ & -> & _).
      exact Hflag.
  - destruct (hitlLoading s); [|discriminate].
    injection Hc as <-. unfold handleHITL_settled.
    destruct r as [data|e]; simpl; [|exact Hflag].
    destruct (negb _); simpl; [reflexivity|exact Hflag].
  - injection Hc as <-. destruct r; exact Hflag.
  - injection Hc as <-. destruct r; exact Hflag.
  - injection Hc as <-. destruct r; exact Hflag.
Qed.

Lemma cont_flag_unset s c s' :
  ¬ cont_acknowledges c →
  hitlJustApproved s = false →
  cont_step s c = Some s' →
  hitlJustApproved s' = false.
Proof.
  intros Hna Hflag Hc. destruct c; simpl in Hc.
  - destruct (interval_live s); [|discriminate].
    injection Hc as <-. exact Hflag.
  - destruct (inflight s) as [|n]; [discriminate|].
    injection Hc as <-. unfold fetchAll_settled.
    destruct (runRes res) as [incoming|reason]; simpl.
    + destruct (apply_rest_frame res
                  (apply_run incoming (set_inflight n s)))
        as (_ & _ & _ & _ & -> & _).
      unfold apply_run. simpl. rewrite Hflag. exact Hflag.
    + destruct (is_404 reason); simpl; [exact Hflag|].
      destruct (apply_rest_frame res (set_inflight n s))
        as (_ & _ & _ & _ & -> & _).
      exact Hflag.
  - destruct (hitlLoading s); [|discriminate].
    injection Hc as <-. unfold handleHITL_settled. simpl in Hna.
    destruct r as [data|e]; simpl; [|exact Hflag].
    destruct (String.eqb_spec (hd_status data) "already_processed")
      as [_|Hne]; simpl; [exact Hflag|contradiction].
  - injection Hc as <-. destruct r; exact Hflag.
  - injection Hc as <-. destruct r; exact Hflag.
  - injection Hc as <-. destruct r; exact Hflag.
Qed.

Lemma step_flag_kept s e s' :
  ¬ reports_progress e →
  hitlJustApproved s = true →
  step s e = Some s' →
  hitlJustApproved s' = true.
Proof.
  intros Hnp Hflag Hstep.
  apply step_cases in Hstep
    as [(s1 & Hrun & ->)|[[-> ->]|[(d & fb & -> & ->)|[[-> ->]|[-> ->]]]]];
    try exact Hflag.
  destruct (effect_completed_frame s s1)
    as (_ & _ & _ & _ & _ & _ & _ & _ & _ & -> & _).
  apply (run_conts_keep (λ s, hitlJustApproved s = true)
           (λ c, ¬ cont_reports_progress c) cont_flag_kept
           (continuations e) s s1); [|exact Hflag|exact Hrun].
  apply Forall_Exists_neg, Hnp.
Qed.

Lemma step_flag_unset s e s' :
  ¬ acknowledges e →
  hitlJustApproved s = false →
  step s e = Some s' →
  hitlJustApproved s' = false.
Proof.
  intros Hna Hflag Hstep.
  apply step_cases in Hstep
    as [(s1 & Hrun & ->)|[[-> ->]|[(d & fb & -> & ->)|[[-> ->]|[-> ->]]]]];
    try exact Hflag.
  destruct (effect_completed_frame s s1)
    as (_ & _ & _ & _ & _ & _ & _ & _ & _ & -> & _).
  apply (run_conts_keep (λ s, hitlJustApproved s = false)
           (λ c, ¬ cont_acknowledges c) cont_flag_unset
           (continuations e) s s1); [|exact Hflag|exact Hrun].
  apply Forall_Exists_neg, Hna.
Qed.

(** X19.  The flag of the overlay has no timeout and no other trigger:
    once set it stays set, however often the interval fires and whatever
    fails, until a cycle's run fetch returns a status other than
    [waiting_hitl]; and it is set by nothing but the acknowledgement of a
    decision with a status other than [already_processed]. *)
Theorem overlay_flag_has_no_timeout s evs s' :
  steps s evs = Some s' →
  (hitlJustApproved s = true →
   Forall (λ e, ¬ reports_progress e) evs → hitlJustApproved s' = true)
  ∧ (hitlJustApproved s = false →
     Forall (λ e, ¬ acknowledges e) evs → hitlJustApproved s' = false).
Proof.
  revert s. induction evs as [|e evs IH]; intros s Hsteps; simpl in Hsteps.
  - injection Hsteps as <-. auto.
  - destruct (step s e) as [s1|] eqn:Hstep; [|discriminate].
    destruct (IH s1 Hsteps) as [IH1 IH2]. split.
    + intros Hflag Hall. apply Forall_cons in Hall as [He Hall].
      apply IH1; [|exact Hall]. eapply step_flag_kept; eauto.
    + intros Hflag Hall. apply Forall_cons in Hall as [He Hall].
      apply IH2; [|exact Hall]. eapply step_flag_unset; eauto.
Qed.

Lemma overlay_flag_has_no_timeout_witness :
  let evs := [FetchAllSettled (poll_of (Rejected network_error)); Tick;
              FetchAllSettled (poll_of (Fulfilled at_gate_1)); Tick] in
  let s' := default approved_at_gate_1 (steps approved_at_gate_1 evs) in
  (hitlJustApproved approved_at_gate_1 = true →
   Forall (λ e, ¬ reports_progress e) evs → hitlJustApproved s' = true)
  ∧ (hitlJustApproved approved_at_gate_1 = false →
     Forall (λ e, ¬ acknowledges e) evs → hitlJustApproved s' = false).
Proof.
  intros evs s'.
  apply (overlay_flag_has_no_timeout approved_at_gate_1 evs s').
  vm_compute. reflexivity.
Defined.

(** * Properties of the deploy panel *)

Lemma panel_steps_snoc evs : ∀ p e,
  panel_steps p (evs ++ [e])
  = match panel_steps p evs with
    | Some p' => panel_step p' e
    | None => None
    end.
Proof.
  induction evs as [|e' evs IH]; intros p e; simpl.
  - destruct (panel_step p e); reflexivity.
  - destruct (panel_step p e'); [apply IH|reflexivity].
Qed.

(** What the cells [exporting] and [exportResult] record about the
    events so far. *)
Lemma panel_history evs : ∀ p,
  panel_steps panel_mount evs = Some p →
  (exporting p = true → ExportClick "completed" ∈ evs)
  ∧ (∀ v, exportResult p = Some v →
       json_truthy v = true
       ∧ ExportReturned (Some v) ∈ evs
       ∧ ExportClick "completed" ∈ evs).
Proof.
  induction evs as [|e evs IH] using rev_ind; intros p Hsteps.
  - injection Hsteps as <-. split; [discriminate|]. intros v H. discriminate H.
  - rewrite panel_steps_snoc in Hsteps.
    destruct (panel_steps panel_mount evs) as [q|]; [|discriminate].
    destruct (IH q eq_refl) as [IHe IHr].
    assert (Hold : ∀ x, x ∈ evs → x ∈ (evs ++ [e])%list).
    { intros x Hx. apply elem_of_app. left. exact Hx. }
    assert (Hnew : e ∈ (evs ++ [e])%list).
    { apply elem_of_app. right. apply list_elem_of_here. }
    destruct e; simpl in Hsteps.
    + destruct (exporting q) eqn:Hq; simpl in Hsteps; [discriminate|].
      destruct (isCompleted runStatus) eqn:Hc; simpl in Hsteps;
        [|discriminate].
      injection Hsteps as <-. simpl.
      apply String.eqb_eq in Hc. subst runStatus.
      split; [intros _; exact Hnew|].
      intros v Hv. destruct (IHr v Hv) as (? & ? & ?). auto.
    + destruct (exporting q) eqn:Hq; [|discriminate].
      injection Hsteps as <-. simpl. split; [discriminate|].
      intros v Hv.
      destruct result as [w|].
      * destruct (json_truthy w) eqn:Hw.
        -- injection Hv as <-. auto.
        -- destruct (IHr v Hv) as (? & ? & ?). auto.
      * destruct (IHr v Hv) as (? & ? & ?). auto.
    + destruct (_ && _); [|discriminate].
      injection Hsteps as <-. simpl. split; [auto|].
      intros v Hv. destruct (IHr v Hv) as (? & ? & ?). auto.
    + destruct (deploying q); [|discriminate].
      injection Hsteps as <-. simpl. split; [auto|].
      intros v Hv. destruct (IHr v Hv) as (? & ? & ?). auto.
    + destruct (_ && _); [|discriminate].
      injection Hsteps as <-. split; [auto|].
      intros v Hv. destruct (IHr v Hv) as (? & ? & ?). auto.
    + injection Hsteps as <-. simpl. split; [auto|].
      intros v Hv. destruct (IHr v Hv) as (? & ? & ?). auto.
    + injection Hsteps as <-. simpl. split; [auto|].
      intros v Hv. destruct (IHr v Hv) as (? & ? & ?). auto.
Qed.

(** X20.  The panel never starts a deployment before an export has
    succeeded in it: whenever the deploy button can be clicked, the
    events of the panel so far contain a click on the export button made
    while the run was [completed], and the return of an export with a
    result.  A failed export, which returns nothing, does not enable the
    button. *)
Theorem deploy_needs_export evs p d p' :
  panel_steps panel_mount evs = Some p →
  panel_step p (DeployClick d) = Some p' →
  ExportClick "completed" ∈ evs
  ∧ ∃ v, json_truthy v = true ∧ ExportReturned (Some v) ∈ evs
         ∧ exportResult p = Some v.
Proof.
  intros Hsteps Hclick.
  destruct (panel_history evs p Hsteps) as [_ Hr].
  simpl in Hclick.
  destruct (exportResult p) as [v|] eqn:Hv.
  - destruct (Hr v eq_refl) as (Ht & Hret & Hexp).
    split; [exact Hexp|]. exists v. auto.
  - rewrite bool_decide_eq_false_2 in Hclick
      by (intros [x Hx]; discriminate Hx).
    rewrite orb_true_r, andb_false_r in Hclick. discriminate.
Qed.

Lemma deploy_needs_export_witness :
  let p := default panel_mount (panel_steps panel_mount export_then_deploy) in
  let d := {| dep_status := "idle"; dep_urls := [] |} in
  ExportClick "completed" ∈ export_then_deploy
  ∧ ∃ v, json_truthy v = true
         ∧ ExportReturned (Some v) ∈ export_then_deploy
         ∧ exportResult p = Some v.
Proof.
  intros p d.
  apply (deploy_needs_export export_then_deploy p d
           (default p (panel_step p (DeployClick d)))).
  - vm_compute. reflexivity.
  - vm_compute. reflexivity.
Defined.

(** After an export that failed the deploy button stays disabled. *)
Example failed_export_keeps_deploy_disabled :
  ∃ p, panel_steps panel_mount
         [ExportClick "completed";
          ExportReturned (handleExport_result (Rejected (http_error 500)))]
       = Some p
       ∧ panel_step p (DeployClick {| dep_status := "idle"; dep_urls := [] |})
         = None.
Proof.
  eexists. split; [vm_compute; reflexivity|].
  vm_compute. reflexivity.
Qed.

(** * The page without a run *)

(** X21.  While the page has no run to show, a cycle whose run fetch
    fails, for whatever reason, ends the loading state with the run still
    absent, so the page shows its not-found view; but the interval is
    cleared only when the failure is an HTTP 404, and after any other
    failure the next cycles can still bring the run. *)
Theorem failed_run_fetch_shows_not_found s res reason s' :
  run s = None →
  runRes res = Rejected reason →
  step s (FetchAllSettled res) = Some s' →
  run s' = None
  ∧ loading s' = false
  ∧ body_rendered s' = false
  ∧ (∀ d fb, step s' Refrescar = None ∧ step s' (HITLSubmit d fb) = None)
  ∧ interval_live s'
    = if is_404 reason then false else interval_live s.
Proof.
  intros Hnone Hrun Hstep.
  apply step_fetch_inv in Hstep as (n & _ & _ & ->).
  set (new := fetchAll_settled res (set_inflight n s)).
  assert (Hnew : run new = None ∧ loading new = false
                 ∧ interval_live new
                   = if is_404 reason then false else interval_live s).
  { subst new. unfold fetchAll_settled. rewrite Hrun.
    destruct (is_404 reason); simpl; [auto|].
    destruct (apply_rest_frame res (set_inflight n s))
      as (-> & _ & _ & _ & _ & -> & _).
    simpl. auto. }
  destruct Hnew as (Hr & Hl & Hi).
  assert (Heq : effect_completed s new = new).
  { unfold effect_completed, run_status. rewrite Hr, Hnone.
    destruct (decide (status <$> None = status <$> None));
      [reflexivity|contradiction]. }
  rewrite Heq.
  assert (Hbody : body_rendered new = false).
  { unfold body_rendered. rewrite Hl, Hr. reflexivity. }
  split; [exact Hr|]. split; [exact Hl|]. split; [exact Hbody|].
  split; [|exact Hi].
  intros d fb. unfold step. destruct (mounted new); simpl; [|auto].
  unfold gate_enabled. rewrite Hbody. auto.
Qed.

Lemma failed_run_fetch_shows_not_found_witness :
  let res := poll_of (Rejected (http_error 503)) in
  let s' := next mount (FetchAllSettled res) in
  run s' = None
  ∧ loading s' = false
  ∧ body_rendered s' = false
  ∧ (∀ d fb, step s' Refrescar = None ∧ step s' (HITLSubmit d fb) = None)
  ∧ interval_live s'
    = if is_404 (http_error 503) then false else interval_live mount.
Proof.
  intros res s'.
  apply (failed_run_fetch_shows_not_found mount res (http_error 503) s').
  - reflexivity.
  - reflexivity.
  - vm_compute. reflexivity.
Defined.

(** After a first cycle that failed with HTTP 503 the next one shows the
    run. *)
Example run_appears_after_transient_failure :
  ∃ s, steps mount [FetchAllSettled (poll_of (Rejected (http_error 503)));
                    Tick;
                    FetchAllSettled (poll_of (Fulfilled at_gate_1))] = Some s
       ∧ run s = Some at_gate_1 ∧ body_rendered s = true.
Proof.
  eexists. split; [vm_compute; reflexivity|].
  vm_compute. split; reflexivity.
Qed.
